(** * The OAuth web application flow of package [webapp]

    A shallow embedding of [webapp/webapp_flow.go] and of the parts of the Go
    standard library it calls ([encoding/hex], [strings], [fmt], [net/url]),
    followed by the properties of the flow.

    Go strings are byte strings: they are [string]s here, an [ascii] being one
    byte.  A [url.Values] is a Go map from keys to lists of values: a
    [gmap string (list string)].  Methods with a pointer receiver return the
    receiver they leave behind next to their result. *)

From Stdlib Require Import ZArith NArith List String Ascii DecimalString Lia.
From Stdlib Require Import Strings.Byte.
From stdpp Require Import base option list strings gmap sorting.

(** ** Errors and fallible results *)

(** A Go [error] value.  [errorString] is what [errors.New] and [fmt.Errorf]
    build; the two other kinds are the error types of [net/url]. *)
Inductive error : Type :=
| errorString (msg : string)
| EscapeError (s : string)
| InvalidHostError (s : string).

(** The pair [(value, error)] a Go function returns, read the way every caller
    in this package reads it: the value counts only when the error is nil. *)
Inductive Result (A : Type) : Type :=
| Ok (a : A)
| Err (e : error).
Arguments Ok {A} a.
Arguments Err {A} e.

Definition bind {A B} (r : Result A) (k : A -> Result B) : Result B :=
  match r with
  | Ok a => k a
  | Err e => Err e
  end.

#[global] Instance Result_bind : MBind Result := fun A B k r => bind r k.

(** ** Bytes and strings *)

Module strings.

(** [s[i]] for a table of digits; tables are indexed within their bounds. *)
Definition at_ (s : string) (i : N) : ascii :=
  match String.get (N.to_nat i) s with
  | Some c => c
  | None => "000"%char
  end.

Fixpoint ContainsByte (s : string) (c : ascii) : bool :=
  match s with
  | EmptyString => false
  | String d rest => Ascii.eqb d c || ContainsByte rest c
  end.

(** [strings.Cut(s, sep)] for a one-byte separator: the text before the
    first separator, the text after it, and whether there was one. *)
Fixpoint Cut (s : string) (sep : ascii) : string * string * bool :=
  match s with
  | EmptyString => (EmptyString, EmptyString, false)
  | String c rest =>
      if Ascii.eqb c sep then (EmptyString, rest, true)
      else let '(before, after, found) := Cut rest sep in
           (String c before, after, found)
  end.

(** [strings.Join(elems, sep)]. *)
Fixpoint Join (elems : list string) (sep : string) : string :=
  match elems with
  | [] => EmptyString
  | [e] => e
  | e :: rest => e +:+ sep +:+ Join rest sep
  end.

Definition HasPrefixByte (s : string) (c : ascii) : bool :=
  match s with
  | String d _ => Ascii.eqb d c
  | EmptyString => false
  end.

Fixpoint HasSuffixByte (s : string) (c : ascii) : bool :=
  match s with
  | EmptyString => false
  | String d EmptyString => Ascii.eqb d c
  | String _ rest => HasSuffixByte rest c
  end.

(** [s[:len(s)-1]]. *)
Fixpoint dropLast (s : string) : string :=
  match s with
  | EmptyString => EmptyString
  | String _ EmptyString => EmptyString
  | String c rest => String c (dropLast rest)
  end.

Definition dropFirst (s : string) : string :=
  match s with
  | EmptyString => EmptyString
  | String _ rest => rest
  end.

(** The text before the last occurrence of [sep] and the text from that
    occurrence on ([s[:i]] and [s[i:]] for [i = strings.LastIndexByte(s, sep)]),
    or [None] when [sep] does not occur. *)
Fixpoint splitLast (s : string) (sep : ascii) : option (string * string) :=
  match s with
  | EmptyString => None
  | String c rest =>
      match splitLast rest sep with
      | Some (before, from) => Some (String c before, from)
      | None => if Ascii.eqb c sep then Some (EmptyString, s) else None
      end
  end.

Fixpoint take (n : nat) (s : string) : string :=
  match n, s with
  | S n', String c rest => String c (take n' rest)
  | _, _ => EmptyString
  end.

Definition isEmpty (s : string) : bool :=
  match s with
  | EmptyString => true
  | String _ _ => false
  end.

(** Whether every byte of [s] satisfies [p]. *)
Fixpoint allBytes (p : ascii -> bool) (s : string) : bool :=
  match s with
  | EmptyString => true
  | String c rest => p c && allBytes p rest
  end.

End strings.

Module hex.

Definition hextable : string := "0123456789abcdef".

(** [hex.EncodeToString]: two digits per byte, [hextable[v>>4]] then
    [hextable[v&0x0f]]. *)
Fixpoint EncodeToString (src : list byte) : string :=
  match src with
  | [] => EmptyString
  | v :: rest =>
      String (strings.at_ hextable (N.shiftr (Byte.to_N v) 4))
        (String (strings.at_ hextable (N.land (Byte.to_N v) 15))
           (EncodeToString rest))
  end.

End hex.

Module fmt.

(** The verb [%d] applied to an [int]. *)
Definition d (n : Z) : string := NilZero.string_of_int (Z.to_int n).

End fmt.

(** ** The package [net/url]

    [escape], [unescape], [Values] and the methods of [URL] that the flow
    calls, after the Go sources (Go 1.22).  The parser [url.Parse] is not
    embedded: the flow receives its result from the environment (see [Env]
    below), and every property of [BrowserURL] is stated for whatever URL the
    parser returned. *)

Module url.

Inductive encoding : Type :=
| encodePath
| encodePathSegment
| encodeHost
| encodeZone
| encodeUserPassword
| encodeQueryComponent
| encodeFragment.

Definition isQueryComponent (mode : encoding) : bool :=
  match mode with encodeQueryComponent => true | _ => false end.

Definition isHostOrZone (mode : encoding) : bool :=
  match mode with encodeHost | encodeZone => true | _ => false end.

Definition upperhex : string := "0123456789ABCDEF".

(** [lo <= c && c <= hi] on bytes. *)
Definition between (lo hi c : ascii) : bool :=
  (N_of_ascii lo <=? N_of_ascii c)%N && (N_of_ascii c <=? N_of_ascii hi)%N.

Definition ishex (c : ascii) : bool :=
  between "0" "9" c || between "a" "f" c || between "A" "F" c.

Definition unhex (c : ascii) : N :=
  if between "0" "9" c then N_of_ascii c - 48
  else if between "a" "f" c then N_of_ascii c - 97 + 10
  else if between "A" "F" c then N_of_ascii c - 65 + 10
  else 0.

(** The bytes a host may hold unescaped besides the unreserved ones; the
    last one is the double quote. *)
Definition hostSubDelims : string :=
  "!$&'()*+,;=:[]<>" +:+ String "034"%char EmptyString.

(** [shouldEscape(c, mode)]. *)
Definition shouldEscape (c : ascii) (mode : encoding) : bool :=
  if between "a" "z" c || between "A" "Z" c || between "0" "9" c then false
  else if isHostOrZone mode && strings.ContainsByte hostSubDelims c then false
  else if strings.ContainsByte "-_.~" c then false
  else if strings.ContainsByte "$&+,/:;=?@" c then
    match mode with
    | encodePath => Ascii.eqb c "?"
    | encodePathSegment =>
        Ascii.eqb c "/" || Ascii.eqb c ";" || Ascii.eqb c "," || Ascii.eqb c "?"
    | encodeUserPassword =>
        Ascii.eqb c "@" || Ascii.eqb c "/" || Ascii.eqb c "?" || Ascii.eqb c ":"
    | encodeQueryComponent => true
    | encodeFragment => false
    | encodeHost | encodeZone => true
    end
  else if match mode with encodeFragment => strings.ContainsByte "!()*" c | _ => false end
  then false
  else true.

(** What [escape] writes for one byte. *)
Definition escapeByte (c : ascii) (mode : encoding) : string :=
  if Ascii.eqb c " " && isQueryComponent mode then "+"
  else if shouldEscape c mode then
    String "%"
      (String (strings.at_ upperhex (N.shiftr (N_of_ascii c) 4))
         (String (strings.at_ upperhex (N.land (N_of_ascii c) 15)) EmptyString))
  else String c EmptyString.

(** [escape(s, mode)]. *)
Fixpoint escape (s : string) (mode : encoding) : string :=
  match s with
  | EmptyString => EmptyString
  | String c rest => escapeByte c mode +:+ escape rest mode
  end.

Definition QueryEscape (s : string) : string := escape s encodeQueryComponent.

(** [unescape(s, mode)].  The Go function checks the whole string and then
    decodes it; here the two passes are one, the error being that of the
    first offending position in both. *)
Fixpoint unescape (s : string) (mode : encoding) : Result string :=
  match s with
  | EmptyString => Ok EmptyString
  | String c rest =>
      if Ascii.eqb c "%" then
        match rest with
        | String a (String b rest') =>
            if ishex a && ishex b then
              let v := N.lor (N.shiftl (unhex a) 4) (unhex b) in
              let s3 := strings.take 3 s in
              if match mode with
                 | encodeHost =>
                     (unhex a <? 8)%N && negb (String.eqb s3 "%25")
                 | encodeZone =>
                     negb (String.eqb s3 "%25") && negb (v =? 32)%N
                     && shouldEscape (ascii_of_N v) encodeHost
                 | _ => false
                 end
              then Err (EscapeError s3)
              else t ← unescape rest' mode; Ok (String (ascii_of_N v) t)
            else Err (EscapeError (strings.take 3 s))
        | _ => Err (EscapeError (strings.take 3 s))
        end
      else if Ascii.eqb c "+" then
        t ← unescape rest mode;
        Ok (String (if isQueryComponent mode then " "%char else "+"%char) t)
      else if isHostOrZone mode && (N_of_ascii c <? 128)%N
              && shouldEscape c encodeHost
      then Err (InvalidHostError (String c EmptyString))
      else t ← unescape rest mode; Ok (String c t)
  end.

Definition QueryUnescape (s : string) : Result string :=
  unescape s encodeQueryComponent.

(** [validEncoded(s, mode)]. *)
Fixpoint validEncoded (s : string) (mode : encoding) : bool :=
  match s with
  | EmptyString => true
  | String c rest =>
      (strings.ContainsByte "!$&'()*+,;=:@[]%" c || negb (shouldEscape c mode))
      && validEncoded rest mode
  end.

(** *** Values *)

(** [v.Set(key, value)]: [v[key] = []string{value}]. *)
Definition Set_ (key value : string) (v : gmap string (list string))
  : gmap string (list string) :=
  <[key := [value]]> v.

(** [v[key]], the nil slice when the key is absent. *)
Definition index (v : gmap string (list string)) (key : string) : list string :=
  default [] (v !! key).

(** [v.Has(key)]. *)
Definition Has (v : gmap string (list string)) (key : string) : bool :=
  bool_decide (is_Some (v !! key)).

(** The keys of the map, sorted as [slices.Sort] sorts strings, bytewise
    lexicographically ([String.le]).  The keys of a map are distinct, so
    every sorting algorithm returns this list. *)
Definition sortedKeys (v : gmap string (list string)) : list string :=
  merge_sort String.le (map_to_list v).*1.

(** One round of the inner loop of [Encode]. *)
Definition encodeValue (keyEscaped : string) (buf value : string) : string :=
  (if strings.isEmpty buf then buf else buf +:+ "&")
    +:+ keyEscaped +:+ "=" +:+ QueryEscape value.

(** [v.Encode()]: [key=value] pairs, keys sorted, joined by [&]. *)
Definition Encode (v : gmap string (list string)) : string :=
  foldl (fun buf k => foldl (encodeValue (QueryEscape k)) buf (index v k))
    EmptyString (sortedKeys v).

(** The successive values of [key] in the loop of [parseQuery]:
    [key, query, _ = strings.Cut(query, "&")] for as long as [query] is not
    empty. *)
Fixpoint segments (query : string) : list string :=
  match query with
  | EmptyString => []
  | String c rest =>
      if Ascii.eqb c "&" then EmptyString :: segments rest
      else match segments rest with
           | [] => [String c EmptyString]
           | seg :: segs => String c seg :: segs
           end
  end.

(** The body of the loop of [parseQuery], on the map and the error so far. *)
Definition parseSegment (acc : gmap string (list string) * option error)
    (key : string) : gmap string (list string) * option error :=
  let '(m, err) := acc in
  if strings.ContainsByte key ";" then
    (m, Some (errorString "invalid semicolon separator in query"))
  else if strings.isEmpty key then (m, err)
  else
    let '(key, value, _) := strings.Cut key "=" in
    match QueryUnescape key with
    | Err err1 => (m, Some (default err1 err))
    | Ok key =>
        match QueryUnescape value with
        | Err err1 => (m, Some (default err1 err))
        | Ok value => (<[key := index m key ++ [value]]> m, err)
        end
    end.

(** [url.ParseQuery(query)]: the map and the first error met, if any. *)
Definition ParseQuery (query : string)
  : gmap string (list string) * option error :=
  foldl parseSegment (∅, None) (segments query).

(** *** Reading [Encode] and [ParseQuery]

    The definitions of this part are not Go functions; they name what the
    two loops above go through. *)

(** The key/value pairs of a map in the order in which [Encode] writes
    them: by key, and for one key in the order of its values. *)
Definition entries (v : gmap string (list string)) : list (string * string) :=
  flat_map (fun k => map (pair k) (index v k)) (sortedKeys v).

(** The text [Encode] writes for one pair. *)
Definition param (kv : string * string) : string :=
  QueryEscape kv.1 +:+ "=" +:+ QueryEscape kv.2.

(** [m[key] = append(m[key], value)], the last statement of the loop of
    [parseQuery]. *)
Definition add (m : gmap string (list string)) (kv : string * string)
  : gmap string (list string) :=
  <[kv.1 := index m kv.1 ++ [kv.2]]> m.

(** The values that a list of pairs gives to [key], in order. *)
Definition valuesOf (key : string) (ps : list (string * string)) : list string :=
  (filter (fun kv => kv.1 = key) ps).*2.

(** The names of the parameters of a query string, as written and in the
    order in which they are written. *)
Definition paramNames (query : string) : list string :=
  map (fun segment => (strings.Cut segment "=").1.1) (segments query).

(** The [RawQuery] that [url.Parse] assigns to a URL it accepts: the fragment
    is cut off at the first [#], and the query is what follows the first [?]
    of the rest. *)
Definition rawQuery (rawURL : string) : string :=
  ((strings.Cut (strings.Cut rawURL "#").1.1 "?").1).2.

(** *** URL *)

Record Userinfo : Type := {
  username : string;
  password : string;
  passwordSet : bool
}.

Record URL : Type := {
  Scheme : string;
  Opaque : string;
  User : option Userinfo;
  Host : string;
  Path : string;
  RawPath : string;
  OmitHost : bool;
  ForceQuery : bool;
  RawQuery : string;
  Fragment : string;
  RawFragment : string
}.

(** The assignment [u.Host = host]. *)
Definition setHost (u : URL) (host : string) : URL :=
  {| Scheme := Scheme u; Opaque := Opaque u; User := User u; Host := host;
     Path := Path u; RawPath := RawPath u; OmitHost := OmitHost u;
     ForceQuery := ForceQuery u; RawQuery := RawQuery u;
     Fragment := Fragment u; RawFragment := RawFragment u |}.

Fixpoint allDigits (s : string) : bool :=
  match s with
  | EmptyString => true
  | String c rest => between "0" "9" c && allDigits rest
  end.

(** [validOptionalPort(port)]: empty, or a colon and digits. *)
Definition validOptionalPort (port : string) : bool :=
  match port with
  | EmptyString => true
  | String c rest => Ascii.eqb c ":" && allDigits rest
  end.

(** The host of [splitHostPort(hostPort)]: a valid port is cut off, then a
    pair of square brackets around the host. *)
Definition splitHost (hostPort : string) : string :=
  let host :=
    match strings.splitLast hostPort ":" with
    | Some (before, from) => if validOptionalPort from then before else hostPort
    | None => hostPort
    end in
  if strings.HasPrefixByte host "[" && strings.HasSuffixByte host "]"
  then strings.dropLast (strings.dropFirst host)
  else host.

(** [u.Hostname()]. *)
Definition Hostname (u : URL) : string := splitHost (Host u).

(** [u.User.String()] for a non-nil [Userinfo]. *)
Definition Userinfo_String (ui : Userinfo) : string :=
  let s := escape (username ui) encodeUserPassword in
  if passwordSet ui then s +:+ ":" +:+ escape (password ui) encodeUserPassword
  else s.

(** [u.EscapedPath()]. *)
Definition EscapedPath (u : URL) : string :=
  if negb (strings.isEmpty (RawPath u)) && validEncoded (RawPath u) encodePath
     && match unescape (RawPath u) encodePath with
        | Ok p => String.eqb p (Path u)
        | Err _ => false
        end
  then RawPath u
  else if String.eqb (Path u) "*" then "*"
  else escape (Path u) encodePath.

(** [u.EscapedFragment()]. *)
Definition EscapedFragment (u : URL) : string :=
  if negb (strings.isEmpty (RawFragment u))
     && validEncoded (RawFragment u) encodeFragment
     && match unescape (RawFragment u) encodeFragment with
        | Ok f => String.eqb f (Fragment u)
        | Err _ => false
        end
  then RawFragment u
  else escape (Fragment u) encodeFragment.

Definition isNil {A} (o : option A) : bool :=
  match o with None => true | Some _ => false end.

(** [u.String()]; [buf] is the [strings.Builder] of the Go function. *)
Definition String_ (u : URL) : string :=
  let buf := EmptyString in
  let buf :=
    if negb (strings.isEmpty (Scheme u)) then buf +:+ Scheme u +:+ ":" else buf in
  let buf :=
    if negb (strings.isEmpty (Opaque u)) then buf +:+ Opaque u
    else
      let buf :=
        if negb (strings.isEmpty (Scheme u)) || negb (strings.isEmpty (Host u))
           || negb (isNil (User u))
        then
          if OmitHost u && strings.isEmpty (Host u) && isNil (User u) then buf
          else
            let buf :=
              if negb (strings.isEmpty (Host u)) || negb (strings.isEmpty (Path u))
                 || negb (isNil (User u))
              then buf +:+ "//" else buf in
            let buf :=
              match User u with
              | Some ui => buf +:+ Userinfo_String ui +:+ "@"
              | None => buf
              end in
            if negb (strings.isEmpty (Host u))
            then buf +:+ escape (Host u) encodeHost else buf
        else buf in
      let path := EscapedPath u in
      let buf :=
        if negb (strings.isEmpty path) && negb (strings.HasPrefixByte path "/")
           && negb (strings.isEmpty (Host u))
        then buf +:+ "/" else buf in
      let buf :=
        if strings.isEmpty buf then
          let '(segment, _, _) := strings.Cut path "/" in
          if strings.ContainsByte segment ":" then buf +:+ "./" else buf
        else buf in
      buf +:+ path in
  let buf :=
    if ForceQuery u || negb (strings.isEmpty (RawQuery u))
    then buf +:+ "?" +:+ RawQuery u else buf in
  if negb (strings.isEmpty (Fragment u))
  then buf +:+ "#" +:+ EscapedFragment u else buf.

(** A URL that has a scheme, a host and a path and nothing else, the path
    and the host name being written without escapes: what the parser returns
    for [scheme://host[:port][/path]]. *)
Definition plain (u : URL) : bool :=
  negb (strings.isEmpty (Scheme u)) && strings.isEmpty (Opaque u)
  && isNil (User u) && strings.isEmpty (RawPath u) && negb (ForceQuery u)
  && strings.isEmpty (RawQuery u) && strings.isEmpty (Fragment u)
  && (strings.isEmpty (Path u) || strings.HasPrefixByte (Path u) "/")
  && strings.allBytes (fun c => negb (shouldEscape c encodePath)) (Path u)
  && strings.allBytes (fun c => negb (shouldEscape c encodeHost)) (Hostname u).

End url.

(** ** The package [webapp] *)

(** Modelled from the spec: the callback result that [WaitForCode] returns
    ([CodeResponse]) is declared with the local server, which is not part of
    webapp_flow.go.  [Code] and [State] are the two fields the flow reads;
    [Error] is the `error` of the spec's
    `CallbackResult: { code: string, state: string, error: optional string }`. *)
Record CodeResponse : Type := {
  Code : string;
  State : string;
  Error : option string
}.

(** Modelled from the spec: the local server is declared outside
    webapp_flow.go; these are the members the flow touches, after the spec's
    `LocalServer: { port: integer, callbackPath: string, responseRenderer:
    function(outputSink), completionSignal }`.  The renderer maps what the
    sink holds to what it holds afterwards; the completion signal is read
    through [WaitForCode] below. *)
Record localServer : Type := {
  Port : Z;
  CallbackPath : string;
  WriteSuccessHTML : option (string -> string)
}.

(** [Flow] holds the state for the steps of the OAuth web application flow. *)
Record Flow : Type := {
  server : localServer;
  clientID : string;
  state : string
}.

(** [BrowserParams] are the GET query parameters for initiating the web flow. *)
Record BrowserParams : Type := {
  ClientID : string;
  RedirectURI : string;
  Scopes : list string;
  LoginHandle : string;
  AllowSignup : bool
}.

(** The redirect URI as [BrowserURL] rewrites it: the host is the host name
    of the parsed URI followed by the port of the local server. *)
Definition rewritten (flow : Flow) (ru : url.URL) : url.URL :=
  url.setHost ru (url.Hostname ru +:+ ":" +:+ fmt.d (Port (server flow))).

(** The parameters of the authorization URL in the order in which they stand
    in the URL that [BrowserURL] returns, for the redirect URI and the state
    it is given. *)
Definition authorizationParams (params : BrowserParams)
    (redirectURI state : string) : list (string * string) :=
  (if AllowSignup params then [] else [("allow_signup", "false")])
  ++ [("client_id", ClientID params)]
  ++ (if strings.isEmpty (LoginHandle params) then []
      else [("login", LoginHandle params)])
  ++ [("redirect_uri", redirectURI);
      ("scope", strings.Join (Scopes params) " ");
      ("state", state)].

(** One call of [PostForm] on the HTTP client: the URL and the form posted. *)
Record Request : Type := {
  req_url : string;
  req_form : gmap string (list string)
}.

Section Webapp.

(** [http.Response], [api.FormResponse] and [api.AccessToken] are opaque to
    the flow. *)
Variables (http_Response api_FormResponse api_AccessToken : Type).

(** The interface [httpClient]: its one method. *)
Record httpClient : Type := {
  PostForm : string -> gmap string (list string) -> Result http_Response
}.

(** What the flow obtains from outside webapp_flow.go: the outcome of
    binding the local server, the random source behind [rand.Read] (its
    error, if it fails, and the bytes it delivers otherwise), the parser of
    [net/url], the two blocking calls on the local server with the results
    they return once the browser has been redirected, and the decoding of
    the token endpoint's response in package [api]. *)
Record Env : Type := {
  bindLocalServer : Result localServer;
  rand_err : option error;
  rand_byte : nat -> byte;
  url_Parse : string -> Result url.URL;
  Serve : localServer -> localServer * option error;
  WaitForCode : localServer -> Result CodeResponse;
  api_decode : http_Response -> Result api_FormResponse;
  FormResponse_AccessToken : api_FormResponse -> Result api_AccessToken
}.

(** What a call of [AccessTokenWithParams] leaves behind: the value it
    returns, the receiver, the POST requests issued on the client in order,
    and the map the caller passed as [postParams] as the caller sees it
    after the call (a Go map is shared with the caller, [None] is nil). *)
Record Exchange : Type := {
  token : Result api_AccessToken;
  flow_after : Flow;
  requests : list Request;
  params_after : option (gmap string (list string))
}.

Variable E : Env.

(** [rand.Read(b)]: [b] is filled in place, its length is that of the slice
    passed; the buffer after the call and the error. *)
Definition rand_Read (b : list byte) : list byte * option error :=
  match rand_err E with
  | Some err => (b, Some err)
  | None => (map (rand_byte E) (seq 0 (length b)), None)
  end.

(** [randomString(length)]; both components of the Go result, because
    [InitFlow] reads the string without looking at the error.  [length] is
    an [int] in Go; the one call passes 20. *)
Definition randomString (length : nat) : string * option error :=
  let b := repeat x00 (length / 2) in
  let '(b, err) := rand_Read b in
  match err with
  | Some err => (EmptyString, Some err)
  | None => (hex.EncodeToString b, None)
  end.

(** [InitFlow] creates a new Flow instance by detecting a locally available
    port number. *)
Definition InitFlow : Result Flow :=
  match bindLocalServer E with
  | Err err => Err err
  | Ok server =>
      let '(state, _) := randomString 20 in
      Ok {| server := server; clientID := EmptyString; state := state |}
  end.

(** [BrowserURL] appends GET query parameters to [baseURL] and returns the
    URL that the user should navigate to; the result and the receiver. *)
Definition BrowserURL (flow : Flow) (baseURL : string) (params : BrowserParams)
  : Result string * Flow :=
  match url_Parse E (RedirectURI params) with
  | Err err => (Err err, flow)
  | Ok ru =>
      let ru :=
        url.setHost ru (url.Hostname ru +:+ ":" +:+ fmt.d (Port (server flow))) in
      let flow :=
        {| server := {| Port := Port (server flow);
                        CallbackPath := url.Path ru;
                        WriteSuccessHTML := WriteSuccessHTML (server flow) |};
           clientID := ClientID params;
           state := state flow |} in
      let q : gmap string (list string) := ∅ in
      let q := url.Set_ "client_id" (ClientID params) q in
      let q := url.Set_ "redirect_uri" (url.String_ ru) q in
      let q := url.Set_ "scope" (strings.Join (Scopes params) " ") q in
      let q := url.Set_ "state" (state flow) q in
      let q :=
        if negb (strings.isEmpty (LoginHandle params))
        then url.Set_ "login" (LoginHandle params) q else q in
      let q :=
        if negb (AllowSignup params)
        then url.Set_ "allow_signup" "false" q else q in
      (Ok (baseURL +:+ "?" +:+ url.Encode q), flow)
  end.

(** [StartServer] starts the localhost server and blocks until it has
    received the web redirect; the error and the receiver. *)
Definition StartServer (flow : Flow) (writeSuccess : option (string -> string))
  : option error * Flow :=
  let srv := {| Port := Port (server flow);
                CallbackPath := CallbackPath (server flow);
                WriteSuccessHTML := writeSuccess |} in
  let '(srv, err) := Serve E srv in
  (err, {| server := srv; clientID := clientID flow; state := state flow |}).

(** [api.PostForm(c, u, params)]: one call of [c.PostForm], whose response
    package [api] decodes. *)
Definition api_PostForm (c : httpClient) (u : string)
    (params : gmap string (list string)) : Result api_FormResponse :=
  resp ← PostForm c u params; api_decode E resp.

Definition AccessTokenWithParams (flow : Flow) (c : httpClient)
    (tokenURL clientSecret : string)
    (postParams : option (gmap string (list string))) : Exchange :=
  match WaitForCode E (server flow) with
  | Err err =>
      {| token := Err err; flow_after := flow; requests := [];
         params_after := postParams |}
  | Ok code =>
      if negb (String.eqb (State code) (state flow)) then
        {| token := Err (errorString "state mismatch"); flow_after := flow;
           requests := []; params_after := postParams |}
      else
        let shared := negb (url.isNil postParams) in
        let postParams : gmap string (list string) :=
          match postParams with
          | None => ∅
          | Some m => m
          end in
        let postParams := <["client_id" := [clientID flow]]> postParams in
        let postParams := <["client_secret" := [clientSecret]]> postParams in
        let postParams := <["code" := [Code code]]> postParams in
        let postParams := <["state" := [state flow]]> postParams in
        {| token := resp ← api_PostForm c tokenURL postParams;
                    FormResponse_AccessToken E resp;
           flow_after := flow;
           requests := [{| req_url := tokenURL; req_form := postParams |}];
           params_after := if shared then Some postParams else None |}
  end.

(** [AccessToken] blocks until the browser flow has completed and returns
    the access token. *)
Definition AccessToken (flow : Flow) (c : httpClient)
    (tokenURL clientSecret : string) : Exchange :=
  AccessTokenWithParams flow c tokenURL clientSecret None.

End Webapp.

Arguments PostForm {http_Response}.
Arguments bindLocalServer {_ _ _}.
Arguments rand_err {_ _ _}.
Arguments rand_byte {_ _ _}.
Arguments url_Parse {_ _ _}.
Arguments Serve {_ _ _}.
Arguments WaitForCode {_ _ _}.
Arguments api_decode {_ _ _}.
Arguments FormResponse_AccessToken {_ _ _}.
Arguments token {api_AccessToken}.
Arguments flow_after {api_AccessToken}.
Arguments requests {api_AccessToken}.
Arguments params_after {api_AccessToken}.
Arguments rand_Read {_ _ _}.
Arguments randomString {_ _ _}.
Arguments InitFlow {_ _ _}.
Arguments BrowserURL {_ _ _}.
Arguments StartServer {_ _ _}.
Arguments api_PostForm {_ _ _}.
Arguments AccessTokenWithParams {_ _ _}.
Arguments AccessToken {_ _ _}.

(** ** A concrete environment

    The statements below hold for every environment.  To run the flow on
    concrete inputs the parser of the environment is instantiated with
    [parseAbsolute]: a parser of the URLs [scheme://host[:port][/path]] whose
    scheme is made of lower-case letters and whose host and path are made of
    unreserved bytes.  On them it returns what [url.Parse] returns; every
    other input is refused here, which [url.Parse] need not do. *)

Module Example.

Definition unreserved (c : ascii) : bool :=
  url.between "a" "z" c || url.between "A" "Z" c || url.between "0" "9" c
  || strings.ContainsByte "-._~" c.

Definition hostport (authority : string) : bool :=
  match strings.splitLast authority ":" with
  | Some (before, from) =>
      negb (strings.isEmpty before) && strings.allBytes unreserved before
      && url.validOptionalPort from
  | None => negb (strings.isEmpty authority) && strings.allBytes unreserved authority
  end.

(** The text before the first [/] and the text from it on. *)
Fixpoint splitPath (s : string) : string * string :=
  match s with
  | EmptyString => (EmptyString, EmptyString)
  | String c rest =>
      if Ascii.eqb c "/" then (EmptyString, s)
      else let '(authority, path) := splitPath rest in (String c authority, path)
  end.

Definition parseAbsolute (rawURL : string) : Result url.URL :=
  let '(scheme, rest, found) := strings.Cut rawURL ":" in
  match rest with
  | String "/" (String "/" rest) =>
      let '(authority, path) := splitPath rest in
      if found && negb (strings.isEmpty scheme)
         && strings.allBytes (url.between "a" "z") scheme
         && hostport authority
         && strings.allBytes (fun c => unreserved c || Ascii.eqb c "/") path
      then Ok {| url.Scheme := scheme; url.Opaque := EmptyString;
                 url.User := None; url.Host := authority; url.Path := path;
                 url.RawPath := EmptyString; url.OmitHost := false;
                 url.ForceQuery := false; url.RawQuery := EmptyString;
                 url.Fragment := EmptyString; url.RawFragment := EmptyString |}
      else Err (errorString "not an absolute URL of unreserved bytes")
  | _ => Err (errorString "not an absolute URL of unreserved bytes")
  end.

(** The local server once bound, on port 12345. *)
Definition bound : localServer :=
  {| Port := 12345; CallbackPath := EmptyString; WriteSuccessHTML := None |}.

(** An environment: the random source fails with [randomness] when that is
    an error and delivers the bytes 0x10, 0x11, ... otherwise; the browser
    redirect ends in [callback]; a response of the token endpoint is its
    body, a form is the body again, and the access token is the form. *)
Definition env (randomness : option error) (callback : Result CodeResponse)
  : Env string string string :=
  {| bindLocalServer := Ok bound;
     rand_err := randomness;
     rand_byte := fun i => default x00 (Byte.of_N (N.of_nat (16 + i)));
     url_Parse := parseAbsolute;
     Serve := fun srv => (srv, None);
     WaitForCode := fun _ => callback;
     api_decode := Ok;
     FormResponse_AccessToken := Ok |}.

(** An HTTP client whose token endpoint answers every request alike. *)
Definition client : httpClient string :=
  {| PostForm := fun _ _ => Ok "access_token=tok_xyz&token_type=bearer" |}.

(** The nonce of a flow created in [env None callback]. *)
Definition nonce : string := "10111213141516171819".

Definition flow0 : Flow :=
  {| server := bound; clientID := EmptyString; state := nonce |}.

Definition params0 : BrowserParams :=
  {| ClientID := "CLIENT-ID";
     RedirectURI := "http://127.0.0.1/hello";
     Scopes := ["repo"; "read:org"];
     LoginHandle := EmptyString;
     AllowSignup := true |}.

(** The same request with a login handle and sign-up disallowed. *)
Definition params1 : BrowserParams :=
  {| ClientID := "CLIENT-ID";
     RedirectURI := "http://127.0.0.1/hello";
     Scopes := ["repo"; "read:org"];
     LoginHandle := "monalisa";
     AllowSignup := false |}.

(** The flow after [BrowserURL] on [params0]. *)
Definition flow1 : Flow :=
  {| server := {| Port := 12345; CallbackPath := "/hello";
                  WriteSuccessHTML := None |};
     clientID := "CLIENT-ID"; state := nonce |}.

(** What the parser returns for the redirect URI of [params0]. *)
Definition redirect0 : url.URL :=
  {| url.Scheme := "http"; url.Opaque := EmptyString; url.User := None;
     url.Host := "127.0.0.1"; url.Path := "/hello";
     url.RawPath := EmptyString; url.OmitHost := false;
     url.ForceQuery := false; url.RawQuery := EmptyString;
     url.Fragment := EmptyString; url.RawFragment := EmptyString |}.

(** Parameters of the caller that collide with two control fields. *)
Definition extra : gmap string (list string) :=
  <["client_id" := ["OTHER"]]>
    (<["state" := ["0000"]]> (<["grant_type" := ["authorization_code"]]> ∅)).

(** A callback that carries the code and the nonce of the flow. *)
Definition granted : CodeResponse :=
  {| Code := "abc123"; State := nonce; Error := None |}.

(** A callback that carries [error=access_denied] and nothing else. *)
Definition denied : CodeResponse :=
  {| Code := EmptyString; State := EmptyString; Error := Some "access_denied" |}.

(** The environment of a flow whose callback is [granted]. *)
Definition E : Env string string string := env None (Ok granted).

Definition baseURL : string := "https://github.com/authorize".

Definition tokenURL : string := "https://github.com/login/oauth/access_token".

(** A callback whose state is not the nonce of the flow. *)
Definition forged : CodeResponse :=
  {| Code := "abc123"; State := "0000"; Error := None |}.

End Example.

(** ** Further definitions for the statements

    Predicates and sample values that the properties after the claims are
    stated with. *)

(** A digit of [hex.hextable]: [0-9a-f]. *)
Definition lowerHex (c : ascii) : bool :=
  url.between "0" "9" c || url.between "a" "f" c.

(** Whether a host is enclosed in square brackets, the test of
    [splitHostPort]. *)
Definition bracketed (host : string) : bool :=
  strings.HasPrefixByte host "[" && strings.HasSuffixByte host "]".

Module Sample.

(** An environment in which no port can be bound. *)
Definition unbound : Env string string string :=
  {| bindLocalServer := Err (errorString "listen tcp 127.0.0.1:0: bind failed");
     rand_err := None;
     rand_byte := fun _ => x00;
     url_Parse := Example.parseAbsolute;
     Serve := fun srv => (srv, None);
     WaitForCode := fun _ => Ok Example.granted;
     api_decode := Ok;
     FormResponse_AccessToken := Ok |}.

(** An HTTP client that cannot reach the token endpoint. *)
Definition offline : httpClient string :=
  {| PostForm := fun _ _ => Err (errorString "connection refused") |}.

(** Parameters whose redirect URI the parser of [Example.env] refuses. *)
Definition unparsable : BrowserParams :=
  {| ClientID := "CLIENT-ID";
     RedirectURI := "callback";
     Scopes := [];
     LoginHandle := EmptyString;
     AllowSignup := true |}.

(** A redirect URI on the IPv6 loopback address, [http://[::1]/hello],
    parsed. *)
Definition loopback6 : url.URL :=
  {| url.Scheme := "http"; url.Opaque := EmptyString; url.User := None;
     url.Host := "[::1]"; url.Path := "/hello";
     url.RawPath := EmptyString; url.OmitHost := false;
     url.ForceQuery := false; url.RawQuery := EmptyString;
     url.Fragment := EmptyString; url.RawFragment := EmptyString |}.

(** A map of values with two values under one key and none under another. *)
Definition values : gmap string (list string) :=
  <["scope" := ["repo"; "read:org"]]> (<["login" := []]> (<["a&b" := ["1=2"]]> ∅)).

End Sample.

(** * Facts about strings and about [net/url] *)

Section StringFacts.

Lemma append_cons c (s t : string) : String c s +:+ t = String c (s +:+ t).
Proof. reflexivity. Qed.

Lemma append_nil_l (s : string) : EmptyString +:+ s = s.
Proof. reflexivity. Qed.

Lemma append_nil_r (s : string) : s +:+ EmptyString = s.
Proof. induction s as [ | c s IH]; [reflexivity | ]. now rewrite append_cons, IH. Qed.

Lemma append_assoc (s t u : string) : (s +:+ t) +:+ u = s +:+ (t +:+ u).
Proof.
  induction s as [ | c s IH]; [reflexivity | ].
  now rewrite !append_cons, IH.
Qed.

Lemma isEmpty_append (s t : string) :
  strings.isEmpty (s +:+ t) = strings.isEmpty s && strings.isEmpty t.
Proof. destruct s; reflexivity. Qed.

Lemma ContainsByte_append (s t : string) c :
  strings.ContainsByte (s +:+ t) c
  = strings.ContainsByte s c || strings.ContainsByte t c.
Proof.
  induction s as [ | d s IH]; [reflexivity | ].
  rewrite append_cons. simpl. now rewrite IH, orb_assoc.
Qed.

Lemma Cut_append (s t : string) sep :
  strings.ContainsByte s sep = false ->
  strings.Cut (s +:+ String sep t) sep = (s, t, true).
Proof.
  induction s as [ | d s IH]; intros Hs.
  - rewrite append_nil_l. simpl. now rewrite Ascii.eqb_refl.
  - rewrite append_cons. simpl in *.
    apply orb_false_iff in Hs as [Hd Hs].
    now rewrite Hd, (IH Hs).
Qed.

Lemma Cut_absent (s : string) sep :
  strings.ContainsByte s sep = false ->
  strings.Cut s sep = (s, EmptyString, false).
Proof.
  induction s as [ | d s IH]; intros Hs; [reflexivity | ].
  simpl in *. apply orb_false_iff in Hs as [Hd Hs].
  now rewrite Hd, (IH Hs).
Qed.

End StringFacts.

Ltac each_byte c := destruct c as [[] [] [] [] [] [] [] []].

Section Escaping.

Import url.

Lemma escape_cons c s mode :
  escape (String c s) mode = escapeByte c mode +:+ escape s mode.
Proof. reflexivity. Qed.

(** The bytes that delimit a query string and its parameters are escaped. *)
Lemma escapeByte_query_separators c x :
  strings.ContainsByte "&=;#?" x = true ->
  strings.ContainsByte (escapeByte c encodeQueryComponent) x = false.
Proof. intros Hx. each_byte x; try discriminate Hx; each_byte c; reflexivity. Qed.

Lemma QueryEscape_separators s x :
  strings.ContainsByte "&=;#?" x = true ->
  strings.ContainsByte (QueryEscape s) x = false.
Proof.
  intros Hx. unfold QueryEscape.
  induction s as [ | c s IH]; [reflexivity | ].
  now rewrite escape_cons, ContainsByte_append, IH, escapeByte_query_separators.
Qed.

Lemma unescape_escapeByte c rest :
  unescape (escapeByte c encodeQueryComponent +:+ rest) encodeQueryComponent
  = t ← unescape rest encodeQueryComponent; Ok (String c t).
Proof. each_byte c; reflexivity. Qed.

Lemma QueryUnescape_QueryEscape s : QueryUnescape (QueryEscape s) = Ok s.
Proof.
  unfold QueryUnescape, QueryEscape.
  induction s as [ | c s IH]; [reflexivity | ].
  now rewrite escape_cons, unescape_escapeByte, IH.
Qed.

End Escaping.


Section Encoding.

Import url.

Lemma Join_cons e e' rest sep :
  strings.Join (e :: e' :: rest) sep = e +:+ sep +:+ strings.Join (e' :: rest) sep.
Proof. reflexivity. Qed.

Lemma encode_params (ps : list (string * string)) : forall buf,
  foldl (fun buf kv => encodeValue (QueryEscape kv.1) buf kv.2) buf ps
  = match ps with
    | [] => buf
    | _ => (if strings.isEmpty buf then buf else buf +:+ "&")
             +:+ strings.Join (map param ps) "&"
    end.
Proof.
  induction ps as [ | [k v] ps IH]; intros buf; [reflexivity | ].
  simpl foldl. rewrite IH. unfold encodeValue at 2. simpl fst; simpl snd.
  destruct ps as [ | kv ps]; [reflexivity | ].
  cbn [map]. rewrite (Join_cons (param (k, v))).
  rewrite isEmpty_append.
  replace (strings.isEmpty (QueryEscape k +:+ "=" +:+ QueryEscape v)) with false
    by (now rewrite isEmpty_append, andb_false_r).
  rewrite andb_false_r. unfold encodeValue, param. simpl fst; simpl snd.
  now rewrite !append_assoc.
Qed.

Lemma encode_values (v : gmap string (list string)) (keys : list string) :
  forall buf,
    foldl (fun buf k => foldl (encodeValue (QueryEscape k)) buf (index v k)) buf keys
    = foldl (fun buf kv => encodeValue (QueryEscape kv.1) buf kv.2) buf
        (flat_map (fun k => map (pair k) (index v k)) keys).
Proof.
  induction keys as [ | k keys IH]; intros buf; [reflexivity | ].
  simpl. rewrite foldl_app, IH. f_equal.
  generalize (index v k) buf. clear.
  intros vs; induction vs as [ | val vs IH]; intros buf; [reflexivity | ].
  simpl. now rewrite IH.
Qed.

Lemma Encode_entries (v : gmap string (list string)) :
  Encode v = strings.Join (map param (entries v)) "&".
Proof.
  unfold Encode. rewrite encode_values, encode_params. fold (entries v).
  now destruct (entries v).
Qed.

Lemma segments_param p rest :
  strings.ContainsByte p "&" = false ->
  segments (p +:+ String "&" rest) = p :: segments rest.
Proof.
  induction p as [ | c p IH]; intros Hp; [reflexivity | ].
  simpl in Hp. apply orb_false_iff in Hp as [Hc Hp].
  rewrite append_cons. simpl. now rewrite Hc, (IH Hp).
Qed.

Lemma segments_last p :
  strings.ContainsByte p "&" = false -> strings.isEmpty p = false ->
  segments p = [p].
Proof.
  induction p as [ | c p IH]; intros Hp Hne; [discriminate | ].
  simpl in Hp. apply orb_false_iff in Hp as [Hc Hp].
  simpl. rewrite Hc. destruct p as [ | d p]; [reflexivity | ].
  now rewrite (IH Hp).
Qed.

Lemma param_separators kv x :
  strings.ContainsByte "&;#?" x = true ->
  strings.ContainsByte (param kv) x = false.
Proof.
  intros Hx. unfold param.
  rewrite !ContainsByte_append, !QueryEscape_separators
    by (each_byte x; try discriminate Hx; reflexivity).
  each_byte x; try discriminate Hx; reflexivity.
Qed.

Lemma param_not_empty kv : strings.isEmpty (param kv) = false.
Proof. unfold param. now rewrite !isEmpty_append, andb_false_r. Qed.

Lemma segments_Join (ps : list (string * string)) :
  segments (strings.Join (map param ps) "&") = map param ps.
Proof.
  induction ps as [ | kv ps IH]; [reflexivity | ].
  destruct ps as [ | kv' ps].
  - simpl. apply segments_last; [now apply param_separators | apply param_not_empty].
  - cbn [map] in *. rewrite (Join_cons (param kv)).
    change ("&" +:+ ?s) with (String "&" s).
    rewrite segments_param by now apply param_separators.
    now rewrite IH.
Qed.

Lemma Join_params_separators (ps : list (string * string)) x :
  strings.ContainsByte "#?" x = true ->
  strings.ContainsByte (strings.Join (map param ps) "&") x = false.
Proof.
  intros Hx.
  assert (Hparam : forall kv, strings.ContainsByte (param kv) x = false)
    by (intros kv; apply param_separators;
        each_byte x; try discriminate Hx; reflexivity).
  induction ps as [ | kv ps IH]; [reflexivity | ].
  destruct ps as [ | kv' ps]; [apply Hparam | ].
  cbn [map] in *. rewrite (Join_cons (param kv)).
  rewrite !ContainsByte_append, Hparam, IH.
  each_byte x; try discriminate Hx; reflexivity.
Qed.

(** The query of [base?query], for a base URL without query and fragment and
    a query string without [#]. *)
Lemma rawQuery_appended (base query : string) :
  strings.ContainsByte base "?" = false ->
  strings.ContainsByte base "#" = false ->
  strings.ContainsByte query "#" = false ->
  rawQuery (base +:+ "?" +:+ query) = query.
Proof.
  intros Hquery Hfragment Hclean. unfold rawQuery.
  rewrite (Cut_absent _ "#")
    by (now rewrite !ContainsByte_append, Hfragment, Hclean).
  cbn [fst]. change ("?" +:+ query) with (String "?" query).
  now rewrite Cut_append.
Qed.

Lemma parseSegment_param m err kv :
  parseSegment (m, err) (param kv) = (add m kv, err).
Proof.
  unfold parseSegment.
  rewrite param_separators by reflexivity. rewrite param_not_empty.
  unfold param. change ("=" +:+ ?s) with (String "=" s).
  rewrite Cut_append by now apply QueryEscape_separators.
  now rewrite !QueryUnescape_QueryEscape.
Qed.

Lemma ParseQuery_Join (ps : list (string * string)) :
  ParseQuery (strings.Join (map param ps) "&") = (foldl add ∅ ps, None).
Proof.
  unfold ParseQuery. rewrite segments_Join.
  generalize (∅ : gmap string (list string)) (@None error).
  induction ps as [ | kv ps IH]; intros m err; [reflexivity | ].
  cbn [map foldl]. now rewrite parseSegment_param, IH.
Qed.

Lemma ParseQuery_Encode v : ParseQuery (Encode v) = (foldl add ∅ (entries v), None).
Proof. now rewrite Encode_entries, ParseQuery_Join. Qed.

End Encoding.


Section Roundtrip.
Import url.

Lemma lookup_foldl_add (ps : list (string * string)) : forall m key,
  foldl add m ps !! key
  = match valuesOf key ps with
    | [] => m !! key
    | vs => Some (index m key ++ vs)
    end.
Proof.
  induction ps as [ | [k v] ps IH]; intros m key; [reflexivity | ].
  cbn [foldl]. rewrite IH. unfold valuesOf, add, index. cbn [fst snd].
  rewrite filter_cons. cbn [fst]. destruct (decide (k = key)) as [-> | Hne].
  - rewrite fmap_cons, lookup_insert_eq. cbn [snd default].
    destruct ((filter _ ps).*2) as [ | v' vs]; [reflexivity | ].
    unfold id. now rewrite <- app_assoc.
  - now rewrite lookup_insert_ne.
Qed.

Lemma valuesOf_app key ps ps' :
  valuesOf key (ps ++ ps') = valuesOf key ps ++ valuesOf key ps'.
Proof. unfold valuesOf. now rewrite filter_app, fmap_app. Qed.

Lemma valuesOf_group key k (vs : list string) :
  valuesOf key (map (pair k) vs) = if decide (k = key) then vs else [].
Proof.
  unfold valuesOf. induction vs as [ | v vs IH]; [now destruct (decide _) | ].
  cbn [map]. rewrite filter_cons. cbn [fst].
  destruct (decide (k = key)); [ | exact IH].
  rewrite fmap_cons. cbn [snd]. now rewrite IH.
Qed.

Lemma valuesOf_groups (v : gmap string (list string)) key (keys : list string) :
  NoDup keys ->
  valuesOf key (flat_map (fun k => map (pair k) (index v k)) keys)
  = if decide (key ∈ keys) then index v key else [].
Proof.
  induction 1 as [ | k keys Hk Hkeys IH].
  - cbn. destruct (decide _) as [Hin | _]; [ | reflexivity]. now apply elem_of_nil in Hin.
  - cbn [flat_map]. rewrite valuesOf_app, valuesOf_group, IH.
    destruct (decide (k = key)) as [-> | Hne].
    + rewrite decide_False by assumption. rewrite decide_True by left.
      apply app_nil_r.
    + destruct (decide (key ∈ keys)) as [Hin | Hnin].
      * rewrite decide_True by now right. reflexivity.
      * rewrite decide_False; [reflexivity | ].
        intros [-> | Hin]%elem_of_cons; tauto.
Qed.

Lemma sortedKeys_NoDup (v : gmap string (list string)) : NoDup (sortedKeys v).
Proof.
  unfold sortedKeys. rewrite merge_sort_Permutation. apply NoDup_fst_map_to_list.
Qed.

Lemma elem_of_sortedKeys (v : gmap string (list string)) key :
  key ∈ sortedKeys v <-> is_Some (v !! key).
Proof.
  unfold sortedKeys. rewrite merge_sort_Permutation, list_elem_of_fmap. split.
  - intros [[k vs] [-> Hin]]. apply elem_of_map_to_list in Hin. now exists vs.
  - intros [vs Hvs]. exists (key, vs). split; [reflexivity | ].
    now apply elem_of_map_to_list.
Qed.

Lemma valuesOf_entries (v : gmap string (list string)) key :
  valuesOf key (entries v) = index v key.
Proof.
  unfold entries. rewrite valuesOf_groups by apply sortedKeys_NoDup.
  destruct (decide _) as [_ | Hnin]; [reflexivity | ].
  rewrite elem_of_sortedKeys in Hnin. unfold index.
  destruct (v !! key); [ | reflexivity]. exfalso. eauto.
Qed.

Lemma foldl_add_entries (v : gmap string (list string)) :
  (forall key, v !! key <> Some []) ->
  foldl add ∅ (entries v) = v.
Proof.
  intros Hv. apply map_eq. intros key.
  rewrite lookup_foldl_add, valuesOf_entries. unfold index.
  rewrite !lookup_empty. specialize (Hv key).
  destruct (v !! key) as [[ | val vs] | ]; cbn; congruence.
Qed.

Lemma ParseQuery_Encode_id (v : gmap string (list string)) :
  (forall key, v !! key <> Some []) ->
  ParseQuery (Encode v) = (v, None).
Proof. intros Hv. now rewrite ParseQuery_Encode, foldl_add_entries. Qed.

End Roundtrip.

(** * Properties of the token exchange *)

Section Exchange.

Context {http_Response api_FormResponse api_AccessToken : Type}.
Context (E : Env http_Response api_FormResponse api_AccessToken).

Implicit Types (flow : Flow) (c : httpClient http_Response).
Implicit Types (tokenURL clientSecret : string) (code : CodeResponse).
Implicit Types (postParams : option (gmap string (list string))).

(** The form [AccessTokenWithParams] posts once the state has been checked:
    the caller's parameters under the four control fields. *)
Lemma exchange_granted flow c tokenURL clientSecret postParams code :
  WaitForCode E (server flow) = Ok code ->
  State code = state flow ->
  requests (AccessTokenWithParams E flow c tokenURL clientSecret postParams) =
    [{| req_url := tokenURL;
        req_form :=
          <["state" := [state flow]]>
            (<["code" := [Code code]]>
               (<["client_secret" := [clientSecret]]>
                  (<["client_id" := [clientID flow]]>
                     (default ∅ postParams)))) |}].
Proof.
  intros Hwait Hstate. unfold AccessTokenWithParams.
  rewrite Hwait, Hstate, String.eqb_refl. simpl.
  destruct postParams; reflexivity.
Qed.

(** An exchange that is refused by the state check. *)
Lemma exchange_refused flow c tokenURL clientSecret postParams code :
  WaitForCode E (server flow) = Ok code ->
  State code <> state flow ->
  AccessTokenWithParams E flow c tokenURL clientSecret postParams =
    {| token := Err (errorString "state mismatch"); flow_after := flow;
       requests := []; params_after := postParams |}.
Proof.
  intros Hwait Hstate. unfold AccessTokenWithParams. rewrite Hwait.
  destruct (String.eqb_spec (State code) (state flow)) as [Heq | _];
    [contradiction | reflexivity].
Qed.

(** An exchange whose wait for the callback fails. *)
Lemma exchange_wait_failed flow c tokenURL clientSecret postParams err :
  WaitForCode E (server flow) = Err err ->
  AccessTokenWithParams E flow c tokenURL clientSecret postParams =
    {| token := Err err; flow_after := flow;
       requests := []; params_after := postParams |}.
Proof. intros Hwait. unfold AccessTokenWithParams. now rewrite Hwait. Qed.



(** C1.  Whenever the state of the callback result differs from the state
    nonce stored in the flow, [AccessTokenWithParams] fails with the error
    "state mismatch" and issues no POST request on the HTTP client. *)
Theorem state_mismatch_rejected flow c tokenURL clientSecret postParams code :
  WaitForCode E (server flow) = Ok code ->
  State code <> state flow ->
  token (AccessTokenWithParams E flow c tokenURL clientSecret postParams)
    = Err (errorString "state mismatch")
  /\ requests (AccessTokenWithParams E flow c tokenURL clientSecret postParams)
    = [].
Proof.
  intros Hwait Hstate.
  now rewrite (exchange_refused _ _ _ _ _ _ Hwait Hstate).
Qed.

(** C5.  When the callback succeeded with the state of the flow, exactly one
    POST is sent, to the token URL, and its form holds [client_id] (the
    client ID stored in the flow), [client_secret], [code] (from the
    callback) and [state] (the nonce of the flow), whatever the caller
    supplied under these four keys. *)
Theorem exchange_control_fields flow c tokenURL clientSecret postParams code :
  WaitForCode E (server flow) = Ok code ->
  State code = state flow ->
  exists body,
    requests (AccessTokenWithParams E flow c tokenURL clientSecret postParams)
      = [{| req_url := tokenURL; req_form := body |}]
    /\ body !! "client_id" = Some [clientID flow]
    /\ body !! "client_secret" = Some [clientSecret]
    /\ body !! "code" = Some [Code code]
    /\ body !! "state" = Some [state flow].
Proof.
  intros Hwait Hstate. eexists. split.
  - exact (exchange_granted _ _ _ _ _ _ Hwait Hstate).
  - now simplify_map_eq.
Qed.

(** C10.  Every entry of the caller's [postParams] whose key is none of
    [client_id], [client_secret], [code], [state] is in the posted form
    unchanged, and a key that the caller did not supply and that is none of
    the four is not in the form.  The posted form is the caller's map itself,
    as the caller sees it after the call. *)
Theorem exchange_extra_params flow c tokenURL clientSecret code
    (extra : gmap string (list string)) (key : string) :
  WaitForCode E (server flow) = Ok code ->
  State code = state flow ->
  key <> "client_id" -> key <> "client_secret" ->
  key <> "code" -> key <> "state" ->
  exists body,
    requests (AccessTokenWithParams E flow c tokenURL clientSecret (Some extra))
      = [{| req_url := tokenURL; req_form := body |}]
    /\ params_after
         (AccessTokenWithParams E flow c tokenURL clientSecret (Some extra))
       = Some body
    /\ body !! key = extra !! key.
Proof.
  intros Hwait Hstate H1 H2 H3 H4. eexists. split; [ | split].
  - exact (exchange_granted _ _ _ _ _ _ Hwait Hstate).
  - unfold AccessTokenWithParams.
    now rewrite Hwait, Hstate, String.eqb_refl.
  - simpl. now rewrite !lookup_insert_ne by congruence.
Qed.

(** C9.  [AccessToken] is [AccessTokenWithParams] with nil parameters, and
    nil parameters give the result, the requests and the flow that an empty
    map of parameters gives. *)
Theorem AccessToken_nil_params flow c tokenURL clientSecret :
  AccessToken E flow c tokenURL clientSecret
    = AccessTokenWithParams E flow c tokenURL clientSecret None
  /\ token (AccessTokenWithParams E flow c tokenURL clientSecret None)
     = token (AccessTokenWithParams E flow c tokenURL clientSecret (Some ∅))
  /\ requests (AccessTokenWithParams E flow c tokenURL clientSecret None)
     = requests (AccessTokenWithParams E flow c tokenURL clientSecret (Some ∅))
  /\ flow_after (AccessTokenWithParams E flow c tokenURL clientSecret None)
     = flow_after (AccessTokenWithParams E flow c tokenURL clientSecret (Some ∅)).
Proof.
  split; [reflexivity | ].
  unfold AccessTokenWithParams.
  destruct (WaitForCode E (server flow)) as [code | err]; [ | easy].
  destruct (negb (String.eqb (State code) (state flow))); easy.
Qed.

(** C7, as the code has it.  The flow never reads the error of a callback
    result.  A callback that carried an error parameter holds no state, so
    when the nonce of the flow is not empty the exchange is refused by the
    state check: it fails with the error "state mismatch", not with the
    error of the callback, and no POST is issued. *)
Theorem callback_error_rejected flow c tokenURL clientSecret postParams code e :
  WaitForCode E (server flow) = Ok code ->
  Error code = Some e ->
  State code = EmptyString ->
  state flow <> EmptyString ->
  token (AccessTokenWithParams E flow c tokenURL clientSecret postParams)
    = Err (errorString "state mismatch")
  /\ requests (AccessTokenWithParams E flow c tokenURL clientSecret postParams)
    = [].
Proof.
  intros Hwait _ Hempty Hnonce.
  rewrite (exchange_refused _ _ _ _ _ _ Hwait); [easy | congruence].
Qed.

End Exchange.

(** * Properties of the authorization URL *)

Section Serialising.

Import url.

Lemma escape_unchanged s mode :
  strings.allBytes (fun c => negb (shouldEscape c mode)) s = true ->
  escape s mode = s.
Proof.
  induction s as [ | c s IH]; [reflexivity | ].
  cbn [strings.allBytes]. intros [Hc Hs]%andb_true_iff.
  rewrite escape_cons, (IH Hs). unfold escapeByte.
  apply negb_true_iff in Hc. rewrite Hc.
  destruct (Ascii.eqb_spec c " ") as [-> | _]; [ | reflexivity].
  destruct mode; [reflexivity .. | discriminate Hc | reflexivity].
Qed.

Lemma allBytes_append p s t :
  strings.allBytes p (s +:+ t) = strings.allBytes p s && strings.allBytes p t.
Proof.
  induction s as [ | c s IH]; [reflexivity | ].
  rewrite append_cons. cbn [strings.allBytes]. now rewrite IH, andb_assoc.
Qed.

Lemma string_of_uint_host d :
  strings.allBytes (fun c => negb (shouldEscape c encodeHost))
    (NilEmpty.string_of_uint d) = true.
Proof. induction d; cbn [NilEmpty.string_of_uint strings.allBytes]; now rewrite ?IHd. Qed.

Lemma fmt_d_host n :
  strings.allBytes (fun c => negb (shouldEscape c encodeHost)) (fmt.d n) = true.
Proof.
  unfold fmt.d, NilZero.string_of_int, NilZero.string_of_uint.
  destruct (Z.to_int n) as [d | d]; [ | cbn [strings.allBytes]; rewrite andb_true_iff; split; [reflexivity | ]];
    (destruct d; [reflexivity | apply string_of_uint_host ..]).
Qed.

Lemma fmt_d_not_empty n : strings.isEmpty (fmt.d n) = false.
Proof.
  unfold fmt.d, NilZero.string_of_int, NilZero.string_of_uint.
  destruct (Z.to_int n) as [d | d]; [ | reflexivity]. now destruct d.
Qed.

(** The redirect URI that [BrowserURL] puts into the authorization URL. *)
Lemma String_plain (u : URL) (port : Z) :
  plain u = true ->
  String_ (setHost u (Hostname u +:+ ":" +:+ fmt.d port))
  = Scheme u +:+ "://" +:+ Hostname u +:+ ":" +:+ fmt.d port +:+ Path u.
Proof.
  unfold plain. rewrite !andb_true_iff.
  intros [[[[[[[[[Hscheme Hopaque] Huser] Hraw] Hforce] Hquery] Hfrag] Hslash] Hpath] Hhost].
  apply negb_true_iff in Hscheme, Hforce.
  assert (Hne : strings.isEmpty (Hostname u +:+ ":" +:+ fmt.d port) = false)
    by (now rewrite !isEmpty_append, andb_false_r).
  unfold String_, EscapedPath, EscapedFragment. cbn [setHost Scheme Opaque User Host Path RawPath OmitHost ForceQuery RawQuery Fragment RawFragment].
  rewrite Hscheme, Hopaque, Hraw, Hforce, Hquery, Hfrag, Hne.
  destruct (User u); [discriminate Huser | ].
  rewrite !andb_false_r. cbn [negb orb andb isNil].
  rewrite (escape_unchanged (Path u)) by assumption.
  rewrite escape_unchanged
    by (rewrite !allBytes_append, Hhost, fmt_d_host; reflexivity).
  assert (Hstar : String.eqb (Path u) "*" = false).
  { destruct (Path u) as [ | c p]; [reflexivity | ].
    cbn in Hslash. apply Ascii.eqb_eq in Hslash as ->. reflexivity. }
  rewrite Hstar.
  replace (negb (strings.isEmpty (Path u)) && negb (strings.HasPrefixByte (Path u) "/"))
    with false
    by (destruct (strings.isEmpty (Path u)); [reflexivity | cbn in Hslash; now rewrite Hslash]).
  cbn [andb].
  rewrite !isEmpty_append. rewrite Hscheme. cbn [andb].
  cbn [strings.isEmpty andb].
  rewrite !append_nil_l, !append_assoc. reflexivity.
Qed.

End Serialising.

Section Authorization.

Import url.

Context {http_Response api_FormResponse api_AccessToken : Type}.
Context (E : Env http_Response api_FormResponse api_AccessToken).

Implicit Types (flow : Flow) (params : BrowserParams) (ru : URL).

Lemma Set_no_empty_values key value (v : gmap string (list string)) :
  (forall k, v !! k <> Some []) -> forall k, Set_ key value v !! k <> Some [].
Proof.
  intros Hv k. unfold Set_. rewrite lookup_insert.
  destruct (decide (key = k)); [discriminate | apply Hv].
Qed.

Lemma query_entries (cid ruri scope st login : string) (allow : bool) :
  let q : gmap string (list string) := ∅ in
  let q := Set_ "client_id" cid q in
  let q := Set_ "redirect_uri" ruri q in
  let q := Set_ "scope" scope q in
  let q := Set_ "state" st q in
  let q := if negb (strings.isEmpty login) then Set_ "login" login q else q in
  let q := if negb allow then Set_ "allow_signup" "false" q else q in
  entries q =
    (if allow then [] else [("allow_signup", "false")])
    ++ [("client_id", cid)]
    ++ (if strings.isEmpty login then [] else [("login", login)])
    ++ [("redirect_uri", ruri); ("scope", scope); ("state", st)].
Proof. destruct login, allow; vm_compute; reflexivity. Qed.

(** What [BrowserURL] returns when the redirect URI parses: the base URL, a
    question mark and the encoding of a map [q] that holds the parameters
    [authorizationParams]; the path of the redirect URI and the client ID are
    stored, the state is not touched. *)
Lemma BrowserURL_parsed flow baseURL params ru :
  url_Parse E (RedirectURI params) = Ok ru ->
  exists q : gmap string (list string),
    BrowserURL E flow baseURL params
    = (Ok (baseURL +:+ "?" +:+ Encode q),
       {| server := {| Port := Port (server flow);
                       CallbackPath := Path ru;
                       WriteSuccessHTML := WriteSuccessHTML (server flow) |};
          clientID := ClientID params;
          state := state flow |})
    /\ entries q
       = authorizationParams params (String_ (rewritten flow ru)) (state flow)
    /\ (forall key, q !! key <> Some []).
Proof.
  intros Hparse. unfold BrowserURL. rewrite Hparse. cbv zeta.
  eexists. split; [reflexivity | ]. split.
  - apply query_entries.
  - destruct (negb (AllowSignup params)), (negb (strings.isEmpty (LoginHandle params)));
      repeat apply Set_no_empty_values; intros key; now rewrite lookup_empty.
Qed.

Lemma BrowserURL_failed flow baseURL params err :
  url_Parse E (RedirectURI params) = Err err ->
  BrowserURL E flow baseURL params = (Err err, flow).
Proof. intros Hparse. unfold BrowserURL. now rewrite Hparse. Qed.


Lemma paramNames_Join (ps : list (string * string)) :
  paramNames (strings.Join (map param ps) "&") = map (fun kv => QueryEscape kv.1) ps.
Proof.
  unfold paramNames. rewrite segments_Join, map_map.
  apply map_ext. intros kv. unfold param.
  change ("=" +:+ ?s) with (String "=" s).
  now rewrite Cut_append by now apply QueryEscape_separators.
Qed.

Lemma valuesOf_authorizationParams params redirectURI st :
  let ps := authorizationParams params redirectURI st in
  valuesOf "client_id" ps = [ClientID params]
  /\ valuesOf "redirect_uri" ps = [redirectURI]
  /\ valuesOf "scope" ps = [strings.Join (Scopes params) " "]
  /\ valuesOf "state" ps = [st]
  /\ valuesOf "login" ps
     = (if strings.isEmpty (LoginHandle params) then [] else [LoginHandle params])
  /\ valuesOf "allow_signup" ps = (if AllowSignup params then [] else ["false"]).
Proof.
  unfold authorizationParams.
  destruct (AllowSignup params), (strings.isEmpty (LoginHandle params));
    repeat split; reflexivity.
Qed.


Lemma lookup_entries (v : gmap string (list string)) key :
  (forall k, v !! k <> Some []) ->
  v !! key = match valuesOf key (entries v) with
             | [] => None
             | vs => Some vs
             end.
Proof.
  intros Hv. rewrite valuesOf_entries. unfold index. specialize (Hv key).
  destruct (v !! key) as [[ | val vs] | ]; cbn; congruence.
Qed.

Lemma In_authorizationParams params redirectURI st :
  In ("redirect_uri", redirectURI) (authorizationParams params redirectURI st).
Proof.
  unfold authorizationParams.
  destruct (AllowSignup params), (strings.isEmpty (LoginHandle params));
    cbn; tauto.
Qed.

(** The query string of the URL that [BrowserURL] returns, written out and
    parsed back. *)
Lemma BrowserURL_query flow baseURL params ru :
  url_Parse E (RedirectURI params) = Ok ru ->
  let ps := authorizationParams params (String_ (rewritten flow ru)) (state flow) in
  exists query,
    (BrowserURL E flow baseURL params).1 = Ok (baseURL +:+ "?" +:+ query)
    /\ query = strings.Join (map param ps) "&"
    /\ (ParseQuery query).2 = None
    /\ forall key, (ParseQuery query).1 !! key
                   = match valuesOf key ps with
                     | [] => None
                     | vs => Some vs
                     end.
Proof.
  intros Hparse ps.
  destruct (BrowserURL_parsed flow baseURL params ru Hparse) as (q & -> & Hq & Hne).
  fold ps in Hq. exists (Encode q). split; [reflexivity | ].
  split; [now rewrite Encode_entries, Hq | ].
  rewrite ParseQuery_Encode_id by assumption. split; [reflexivity | ].
  intros key. cbn [fst]. now rewrite lookup_entries, Hq.
Qed.

(** C2, as the code has it.  [BrowserURL] keeps the scheme, the host name and
    the path of the redirect URI and sets the port to that of the local
    server: the host becomes [<hostname>:<port>], not [localhost:<port>].  The
    parameter [redirect_uri] of the returned URL is the URL-encoding of the
    URI rewritten so, which for a redirect URI [scheme://host[:port][/path]]
    is [scheme://hostname:<port><path>]; the path is stored as the callback
    path of the server. *)
Theorem BrowserURL_redirect_uri flow baseURL params ru :
  url_Parse E (RedirectURI params) = Ok ru ->
  exists query,
    (BrowserURL E flow baseURL params).1 = Ok (baseURL +:+ "?" +:+ query)
    /\ In ("redirect_uri=" +:+ QueryEscape (String_ (rewritten flow ru)))
         (segments query)
    /\ (ParseQuery query).1 !! "redirect_uri"
       = Some [String_ (rewritten flow ru)]
    /\ Host (rewritten flow ru)
       = Hostname ru +:+ ":" +:+ fmt.d (Port (server flow))
    /\ Scheme (rewritten flow ru) = Scheme ru
    /\ Path (rewritten flow ru) = Path ru
    /\ (plain ru = true ->
        String_ (rewritten flow ru)
        = Scheme ru +:+ "://" +:+ Hostname ru +:+ ":"
            +:+ fmt.d (Port (server flow)) +:+ Path ru)
    /\ CallbackPath (server (BrowserURL E flow baseURL params).2) = Path ru.
Proof.
  intros Hparse.
  destruct (BrowserURL_query flow baseURL params ru Hparse)
    as (query & Hurl & Hquery & _ & Hvalues).
  exists query. split; [assumption | ]. repeat apply conj; try reflexivity.
  - rewrite Hquery, segments_Join.
    apply (in_map param _ ("redirect_uri", String_ (rewritten flow ru))),
      In_authorizationParams.
  - rewrite Hvalues.
    now rewrite (proj1 (proj2 (valuesOf_authorizationParams _ _ _))).
  - apply String_plain.
  - destruct (BrowserURL_parsed flow baseURL params ru Hparse) as (q & -> & _).
    reflexivity.
Qed.

(** C3, as the code has it.  [Encode] writes the parameters sorted by key,
    whatever the order in which [BrowserURL] sets them: [allow_signup] (only
    when [AllowSignup] is false), [client_id], [login] (only when
    [LoginHandle] is not empty), [redirect_uri], [scope], [state]. *)
Theorem BrowserURL_parameter_order flow baseURL params ru :
  url_Parse E (RedirectURI params) = Ok ru ->
  exists query,
    (BrowserURL E flow baseURL params).1 = Ok (baseURL +:+ "?" +:+ query)
    /\ paramNames query
       = (if AllowSignup params then [] else ["allow_signup"])
         ++ ["client_id"]
         ++ (if strings.isEmpty (LoginHandle params) then [] else ["login"])
         ++ ["redirect_uri"; "scope"; "state"].
Proof.
  intros Hparse.
  destruct (BrowserURL_query flow baseURL params ru Hparse)
    as (query & Hurl & -> & _).
  eexists. split; [exact Hurl | ].
  rewrite paramNames_Join. unfold authorizationParams.
  destruct (AllowSignup params), (strings.isEmpty (LoginHandle params));
    reflexivity.
Qed.

(** C6.  When the redirect URI parses, the URL that [BrowserURL] returns is
    the base URL, a question mark and a query string, which is the query of
    that URL when the base URL has no query and no fragment of its own.
    Parsing the query string gives no error and gives back the client ID, the
    scopes joined by spaces in their order, and the state of the flow, each as
    the one value of its key; [allow_signup] is there, with the value "false",
    if and only if [AllowSignup] is false. *)
Theorem BrowserURL_round_trip flow baseURL params ru :
  url_Parse E (RedirectURI params) = Ok ru ->
  exists u query,
    (BrowserURL E flow baseURL params).1 = Ok u
    /\ u = baseURL +:+ "?" +:+ query
    /\ (strings.ContainsByte baseURL "?" = false ->
        strings.ContainsByte baseURL "#" = false ->
        rawQuery u = query)
    /\ (ParseQuery query).2 = None
    /\ (ParseQuery query).1 !! "client_id" = Some [ClientID params]
    /\ (ParseQuery query).1 !! "scope"
       = Some [strings.Join (Scopes params) " "]
    /\ (ParseQuery query).1 !! "state" = Some [state flow]
    /\ (ParseQuery query).1 !! "allow_signup"
       = (if AllowSignup params then None else Some ["false"])
    /\ Has (ParseQuery query).1 "allow_signup" = negb (AllowSignup params).
Proof.
  intros Hparse.
  destruct (BrowserURL_query flow baseURL params ru Hparse)
    as (query & Hurl & Hquery & Herr & Hvalues).
  destruct (valuesOf_authorizationParams params
              (String_ (rewritten flow ru)) (state flow))
    as (Hid & _ & Hscope & Hstate & _ & Hallow).
  exists (baseURL +:+ "?" +:+ query), query.
  unfold Has. rewrite !Hvalues, Hid, Hscope, Hstate, Hallow.
  split; [assumption | ]. split; [reflexivity | ]. split.
  - intros Hbase Hfragment. apply rawQuery_appended; try assumption.
    rewrite Hquery. now apply Join_params_separators.
  - destruct (AllowSignup params); repeat split; assumption || reflexivity.
Qed.

End Authorization.

(** * The state nonce *)

Section Nonce.

Import url.

Context {http_Response api_FormResponse api_AccessToken : Type}.
Context (E : Env http_Response api_FormResponse api_AccessToken).

Lemma EncodeToString_length (src : list byte) :
  String.length (hex.EncodeToString src) = 2 * length src.
Proof.
  induction src as [ | v src IH]; [reflexivity | ].
  cbn [hex.EncodeToString String.length length]. rewrite IH. lia.
Qed.

Lemma randomString_length (n : nat) :
  rand_err E = None ->
  (randomString E n).2 = None
  /\ String.length (randomString E n).1 = 2 * (n / 2).
Proof.
  intros Hrand. unfold randomString, rand_Read. rewrite Hrand. cbn [fst snd].
  split; [reflexivity | ].
  now rewrite EncodeToString_length, length_map, length_seq, repeat_length.
Qed.

Lemma randomString_failed (n : nat) err :
  rand_err E = Some err -> randomString E n = (EmptyString, Some err).
Proof. intros Hrand. unfold randomString, rand_Read. now rewrite Hrand. Qed.

(** [InitFlow] returns a flow exactly when the server was bound; its state is
    the string of [randomString(20)], with or without an error. *)
Lemma InitFlow_bound srv :
  bindLocalServer E = Ok srv ->
  InitFlow E = Ok {| server := srv; clientID := EmptyString;
                     state := (randomString E 20).1 |}.
Proof.
  intros Hbind. unfold InitFlow. rewrite Hbind.
  now destruct (randomString E 20).
Qed.

Lemma InitFlow_not_bound err :
  bindLocalServer E = Err err -> InitFlow E = Err err.
Proof. intros Hbind. unfold InitFlow. now rewrite Hbind. Qed.

Lemma InitFlow_state flow :
  InitFlow E = Ok flow -> state flow = (randomString E 20).1.
Proof.
  destruct (bindLocalServer E) as [srv | err] eqn:Hbind.
  - rewrite (InitFlow_bound _ Hbind). now intros [= <-].
  - now rewrite (InitFlow_not_bound _ Hbind).
Qed.

(** The random source failing does not make [InitFlow] fail: the flow is
    returned with the empty string as its state. *)
Lemma InitFlow_random_failure srv err :
  bindLocalServer E = Ok srv ->
  rand_err E = Some err ->
  InitFlow E = Ok {| server := srv; clientID := EmptyString; state := EmptyString |}.
Proof.
  intros Hbind Hrand.
  now rewrite (InitFlow_bound _ Hbind), (randomString_failed _ _ Hrand).
Qed.



End Nonce.

(** * The flow on concrete inputs *)

Section Runs.

Import Example.

Example InitFlow_run : InitFlow E = Ok flow0.
Proof. reflexivity. Qed.

Example BrowserURL_run :
  BrowserURL E flow0 baseURL params0
  = (Ok ("https://github.com/authorize?client_id=CLIENT-ID"
         +:+ "&redirect_uri=http%3A%2F%2F127.0.0.1%3A12345%2Fhello"
         +:+ "&scope=repo+read%3Aorg&state=10111213141516171819"),
     flow1).
Proof. vm_compute. reflexivity. Qed.

Example AccessToken_run :
  token (AccessToken E flow1 client tokenURL "SECRET")
  = Ok "access_token=tok_xyz&token_type=bearer".
Proof. reflexivity. Qed.

(** A flow whose state is empty, as [InitFlow] returns it when the random
    source fails, takes a callback without any state for a valid one and goes
    on to post the token request. *)
Example empty_nonce_accepts_empty_state :
  requests (AccessToken (env None (Ok denied))
              {| server := bound; clientID := "CLIENT-ID"; state := EmptyString |}
              client tokenURL "SECRET")
  <> [].
Proof. vm_compute. discriminate. Qed.

(** C4 on the code.  With the server bound and a random source that fails,
    [InitFlow] does not fail: it returns a flow whose state is empty. *)
Theorem InitFlow_ignores_random_failure :
  InitFlow (env (Some (errorString "entropy source unavailable")) (Ok granted))
  = Ok {| server := bound; clientID := EmptyString; state := EmptyString |}.
Proof. reflexivity. Qed.

Lemma state_mismatch_rejected_witness :
  token (AccessTokenWithParams (env None (Ok forged)) flow1 client tokenURL
           "SECRET" None)
    = Err (errorString "state mismatch")
  /\ requests (AccessTokenWithParams (env None (Ok forged)) flow1 client tokenURL
                 "SECRET" None)
    = [].
Proof.
  apply (state_mismatch_rejected (env None (Ok forged)) flow1 client tokenURL
           "SECRET" None forged).
  - reflexivity.
  - vm_compute. discriminate.
Defined.

Lemma exchange_control_fields_witness :
  exists body,
    requests (AccessTokenWithParams E flow1 client tokenURL "SECRET" (Some extra))
      = [{| req_url := tokenURL; req_form := body |}]
    /\ body !! "client_id" = Some ["CLIENT-ID"]
    /\ body !! "client_secret" = Some ["SECRET"]
    /\ body !! "code" = Some ["abc123"]
    /\ body !! "state" = Some [nonce].
Proof.
  apply (exchange_control_fields E flow1 client tokenURL "SECRET" (Some extra)
           granted); reflexivity.
Defined.

Lemma exchange_extra_params_witness :
  exists body,
    requests (AccessTokenWithParams E flow1 client tokenURL "SECRET" (Some extra))
      = [{| req_url := tokenURL; req_form := body |}]
    /\ params_after
         (AccessTokenWithParams E flow1 client tokenURL "SECRET" (Some extra))
       = Some body
    /\ body !! "grant_type" = extra !! "grant_type".
Proof.
  apply (exchange_extra_params E flow1 client tokenURL "SECRET" granted extra
           "grant_type"); reflexivity || discriminate.
Defined.

Lemma callback_error_rejected_witness :
  token (AccessTokenWithParams (env None (Ok denied)) flow1 client tokenURL
           "SECRET" None)
    = Err (errorString "state mismatch")
  /\ requests (AccessTokenWithParams (env None (Ok denied)) flow1 client tokenURL
                 "SECRET" None)
    = [].
Proof.
  apply (callback_error_rejected (env None (Ok denied)) flow1 client tokenURL
           "SECRET" None denied "access_denied").
  - reflexivity.
  - reflexivity.
  - reflexivity.
  - vm_compute. discriminate.
Defined.

(** C7 as stated fails: the callback carried [error=access_denied], and the
    exchange fails with "state mismatch", not with the error of the callback. *)
Lemma callback_error_not_surfaced :
  WaitForCode (env None (Ok denied)) (server flow1) = Ok denied
  /\ Error denied = Some "access_denied"
  /\ token (AccessTokenWithParams (env None (Ok denied)) flow1 client tokenURL
              "SECRET" None)
     = Err (errorString "state mismatch")
  /\ token (AccessTokenWithParams (env None (Ok denied)) flow1 client tokenURL
              "SECRET" None)
     <> Err (errorString "access_denied").
Proof. repeat split. vm_compute. discriminate. Qed.

Lemma BrowserURL_redirect_uri_witness :
  exists query,
    (BrowserURL E flow0 baseURL params0).1 = Ok (baseURL +:+ "?" +:+ query)
    /\ In ("redirect_uri=" +:+ url.QueryEscape "http://127.0.0.1:12345/hello")
         (url.segments query)
    /\ (url.ParseQuery query).1 !! "redirect_uri"
       = Some ["http://127.0.0.1:12345/hello"]
    /\ CallbackPath (server (BrowserURL E flow0 baseURL params0).2) = "/hello".
Proof.
  destruct (BrowserURL_redirect_uri E flow0 baseURL params0 redirect0 eq_refl)
    as (query & Hurl & Hin & Hparsed & _ & _ & _ & Hplain & Hpath).
  rewrite (Hplain eq_refl) in Hin, Hparsed.
  exists query. repeat split; assumption.
Defined.

(** C2 as stated fails: for the redirect URI [http://127.0.0.1/hello] and the
    port 12345 the parameter is the encoding of
    [http://127.0.0.1:12345/hello]; no parameter of the URL is the encoding
    of [http://localhost:12345/hello]. *)
Lemma redirect_uri_not_localhost :
  url_Parse E (RedirectURI params0) = Ok redirect0
  /\ (BrowserURL E flow0 baseURL params0).1
     = Ok (baseURL +:+ "?" +:+
           "client_id=CLIENT-ID&redirect_uri=http%3A%2F%2F127.0.0.1%3A12345%2Fhello&scope=repo+read%3Aorg&state=10111213141516171819")
  /\ ~ In ("redirect_uri="
             +:+ url.QueryEscape ("http://localhost:"
                                    +:+ fmt.d (Port (server flow0))
                                    +:+ url.Path redirect0))
         (url.segments
            "client_id=CLIENT-ID&redirect_uri=http%3A%2F%2F127.0.0.1%3A12345%2Fhello&scope=repo+read%3Aorg&state=10111213141516171819").
Proof.
  split; [reflexivity | ]. split; [vm_compute; reflexivity | ].
  vm_compute. intros [H | [H | [H | [H | []]]]]; discriminate H.
Qed.

Lemma BrowserURL_parameter_order_witness :
  exists query,
    (BrowserURL E flow0 baseURL params1).1 = Ok (baseURL +:+ "?" +:+ query)
    /\ url.paramNames query
       = ["allow_signup"; "client_id"; "login"; "redirect_uri"; "scope"; "state"].
Proof.
  apply (BrowserURL_parameter_order E flow0 baseURL params1 redirect0).
  reflexivity.
Defined.

(** C3 as stated fails: with a login handle and sign-up disallowed the query
    string begins with [allow_signup] and has [login] in third place; the
    order is not [client_id], [redirect_uri], [scope], [state], [login],
    [allow_signup]. *)
Lemma parameter_order_not_as_set :
  (BrowserURL E flow0 baseURL params1).1
  = Ok (baseURL +:+ "?" +:+
        "allow_signup=false&client_id=CLIENT-ID&login=monalisa&redirect_uri=http%3A%2F%2F127.0.0.1%3A12345%2Fhello&scope=repo+read%3Aorg&state=10111213141516171819")
  /\ url.paramNames
       "allow_signup=false&client_id=CLIENT-ID&login=monalisa&redirect_uri=http%3A%2F%2F127.0.0.1%3A12345%2Fhello&scope=repo+read%3Aorg&state=10111213141516171819"
     <> ["client_id"; "redirect_uri"; "scope"; "state"; "login"; "allow_signup"].
Proof. split; [vm_compute; reflexivity | vm_compute; discriminate]. Qed.

Lemma BrowserURL_round_trip_witness :
  exists u query,
    (BrowserURL E flow0 baseURL params1).1 = Ok u
    /\ u = baseURL +:+ "?" +:+ query
    /\ url.rawQuery u = query
    /\ (url.ParseQuery query).2 = None
    /\ (url.ParseQuery query).1 !! "client_id" = Some ["CLIENT-ID"]
    /\ (url.ParseQuery query).1 !! "scope" = Some ["repo read:org"]
    /\ (url.ParseQuery query).1 !! "state" = Some [nonce]
    /\ (url.ParseQuery query).1 !! "allow_signup" = Some ["false"]
    /\ url.Has (url.ParseQuery query).1 "allow_signup" = true.
Proof.
  destruct (BrowserURL_round_trip E flow0 baseURL params1 redirect0 eq_refl)
    as (u & query & Hurl & Hu & Hraw & Hrest).
  exists u, query. repeat split; try assumption; try apply Hrest.
  apply Hraw; reflexivity.
Defined.


End Runs.

(** * Further properties of the token exchange *)

Section ExchangeMore.

Context {http_Response api_FormResponse api_AccessToken : Type}.
Context (E : Env http_Response api_FormResponse api_AccessToken).

Implicit Types (flow : Flow) (c : httpClient http_Response).
Implicit Types (tokenURL clientSecret : string) (code : CodeResponse).
Implicit Types (postParams : option (gmap string (list string))).

(** X8.  [AccessTokenWithParams] never posts more than once, and it posts
    exactly when the wait for the callback returned a result whose state is
    the state of the flow. *)
Theorem exchange_posts_once_iff flow c tokenURL clientSecret postParams :
  length (requests (AccessTokenWithParams E flow c tokenURL clientSecret postParams))
    <= 1
  /\ (requests (AccessTokenWithParams E flow c tokenURL clientSecret postParams)
        <> []
      <-> exists code, WaitForCode E (server flow) = Ok code
                       /\ State code = state flow).
Proof.
  destruct (WaitForCode E (server flow)) as [code | err] eqn:Hwait.
  - destruct (String.eqb_spec (State code) (state flow)) as [Heq | Hne].
    + rewrite (exchange_granted _ _ _ _ _ _ _ Hwait Heq). cbn.
      split; [lia | ]. split; [intros _; now exists code | discriminate].
    + rewrite (exchange_refused _ _ _ _ _ _ _ Hwait Hne). cbn.
      split; [lia | ]. split; [congruence | ].
      intros (code' & [= <-] & Heq). contradiction.
  - rewrite (exchange_wait_failed _ _ _ _ _ _ _ Hwait). cbn.
    split; [lia | ]. split; [congruence | ].
    intros (code' & Hcode & _). discriminate Hcode.
Qed.

(** X9.  An exchange that issues no request leaves the caller's parameters as
    they were passed, and nil parameters are nil after every call: the map
    that replaces them is never handed back. *)
Theorem exchange_refusal_keeps_params flow c tokenURL clientSecret postParams :
  (requests (AccessTokenWithParams E flow c tokenURL clientSecret postParams) = [] ->
   params_after (AccessTokenWithParams E flow c tokenURL clientSecret postParams)
   = postParams)
  /\ params_after (AccessTokenWithParams E flow c tokenURL clientSecret None)
     = None.
Proof.
  unfold AccessTokenWithParams.
  destruct (WaitForCode E (server flow)) as [code | err]; [ | easy].
  destruct (negb (String.eqb (State code) (state flow))); [easy | ].
  cbn. split; [discriminate | reflexivity].
Qed.

(** X10.  The keys of the posted form are the keys the caller passed and the
    four control fields, and nothing else. *)
Theorem exchange_form_keys flow c tokenURL clientSecret postParams r :
  In r (requests (AccessTokenWithParams E flow c tokenURL clientSecret postParams)) ->
  dom (req_form r)
  = {["client_id"; "client_secret"; "code"; "state"]} ∪ dom (default ∅ postParams).
Proof.
  unfold AccessTokenWithParams.
  destruct (WaitForCode E (server flow)) as [code | err]; [ | intros []].
  destruct (negb (String.eqb (State code) (state flow))); [intros [] | ].
  intros [<- | []]. cbn [req_form].
  replace (match postParams with Some m => m | None => ∅ end)
    with (default (∅ : gmap string (list string)) postParams)
    by now destruct postParams.
  rewrite !dom_insert_L. apply set_eq. intros key.
  rewrite !elem_of_union, !elem_of_singleton. tauto.
Qed.

(** X11.  Once the state has been checked, the value returned is decided by
    the answer to the one request: an error of the HTTP client and an error of
    decoding the response are returned as they are, and otherwise the access
    token is read from the decoded response. *)
Theorem exchange_token_from_response flow c tokenURL clientSecret postParams code :
  WaitForCode E (server flow) = Ok code ->
  State code = state flow ->
  exists body,
    requests (AccessTokenWithParams E flow c tokenURL clientSecret postParams)
      = [{| req_url := tokenURL; req_form := body |}]
    /\ (forall err, PostForm c tokenURL body = Err err ->
        token (AccessTokenWithParams E flow c tokenURL clientSecret postParams)
        = Err err)
    /\ (forall resp err,
        PostForm c tokenURL body = Ok resp -> api_decode E resp = Err err ->
        token (AccessTokenWithParams E flow c tokenURL clientSecret postParams)
        = Err err)
    /\ (forall resp form,
        PostForm c tokenURL body = Ok resp -> api_decode E resp = Ok form ->
        token (AccessTokenWithParams E flow c tokenURL clientSecret postParams)
        = FormResponse_AccessToken E form).
Proof.
  intros Hwait Hstate. eexists. split.
  - exact (exchange_granted _ _ _ _ _ _ _ Hwait Hstate).
  - unfold AccessTokenWithParams, api_PostForm.
    rewrite Hwait, Hstate, String.eqb_refl. cbn [negb token].
    destruct postParams; cbn [default from_option id];
      (repeat apply conj; [intros err Hpost | intros resp err Hpost Hdec
                          | intros resp form Hpost Hdec];
       rewrite Hpost; cbn; try rewrite Hdec; reflexivity).
Qed.

End ExchangeMore.

(** * Further properties of the authorization URL *)

Section AuthorizationMore.

Import url.

Context {http_Response api_FormResponse api_AccessToken : Type}.
Context (E : Env http_Response api_FormResponse api_AccessToken).

Implicit Types (flow : Flow) (params : BrowserParams) (ru : URL).

(** X4.  [BrowserURL] fails exactly when the redirect URI does not parse, with
    the error of the parser, and a call that fails leaves the flow as it was:
    neither the client ID nor the callback path is stored. *)
Theorem BrowserURL_fails_iff flow baseURL params err :
  ((BrowserURL E flow baseURL params).1 = Err err
   <-> url_Parse E (RedirectURI params) = Err err)
  /\ ((BrowserURL E flow baseURL params).1 = Err err ->
      (BrowserURL E flow baseURL params).2 = flow).
Proof.
  destruct (url_Parse E (RedirectURI params)) as [ru | err'] eqn:Hparse.
  - destruct (BrowserURL_parsed E flow baseURL params ru Hparse) as (q & -> & _).
    cbn. split; [split | ]; discriminate.
  - rewrite (BrowserURL_failed E _ _ _ _ Hparse). cbn.
    split; [split; intros [= ->] | ]; reflexivity.
Qed.

Lemma valuesOf_other params redirectURI st key :
  key <> "allow_signup" -> key <> "client_id" -> key <> "login" ->
  key <> "redirect_uri" -> key <> "scope" -> key <> "state" ->
  valuesOf key (authorizationParams params redirectURI st) = [].
Proof.
  intros H1 H2 H3 H4 H5 H6. unfold valuesOf, authorizationParams.
  destruct (AllowSignup params), (strings.isEmpty (LoginHandle params));
    cbn [app]; rewrite ?filter_cons, filter_nil; cbn [fst];
    rewrite ?decide_False by congruence; reflexivity.
Qed.

(** X5.  Parsing the query string of the returned URL gives [login] with the
    login handle as its one value when the handle is not empty and no [login]
    otherwise, [redirect_uri] in every case, and no key besides
    [allow_signup], [client_id], [login], [redirect_uri], [scope] and
    [state]. *)
Theorem BrowserURL_login_and_keys flow baseURL params ru :
  url_Parse E (RedirectURI params) = Ok ru ->
  exists query,
    (BrowserURL E flow baseURL params).1 = Ok (baseURL +:+ "?" +:+ query)
    /\ (ParseQuery query).1 !! "login"
       = (if strings.isEmpty (LoginHandle params) then None
          else Some [LoginHandle params])
    /\ is_Some ((ParseQuery query).1 !! "redirect_uri")
    /\ (forall key,
        is_Some ((ParseQuery query).1 !! key) ->
        In key ["allow_signup"; "client_id"; "login"; "redirect_uri"; "scope";
                "state"]).
Proof.
  intros Hparse.
  destruct (BrowserURL_query E flow baseURL params ru Hparse)
    as (query & Hurl & _ & _ & Hvalues).
  destruct (valuesOf_authorizationParams params
              (String_ (rewritten flow ru)) (state flow))
    as (_ & Hredirect & _ & _ & Hlogin & _).
  exists query. split; [assumption | ]. rewrite !Hvalues, Hredirect, Hlogin.
  split; [now destruct (strings.isEmpty (LoginHandle params)) | ].
  split; [now eexists | ].
  intros key. rewrite Hvalues. cbn [In].
  destruct (decide (key = "allow_signup")) as [-> | ?]; [tauto | ].
  destruct (decide (key = "client_id")) as [-> | ?]; [tauto | ].
  destruct (decide (key = "login")) as [-> | ?]; [tauto | ].
  destruct (decide (key = "redirect_uri")) as [-> | ?]; [tauto | ].
  destruct (decide (key = "scope")) as [-> | ?]; [tauto | ].
  destruct (decide (key = "state")) as [-> | ?]; [tauto | ].
  rewrite valuesOf_other by assumption. now intros [? [=]].
Qed.

(** X6.  [BrowserURL] may be called again: the URL it returns does not depend
    on earlier calls, and when the redirect URI parses so does the flow it
    leaves, which holds the client ID and the callback path of the last
    call. *)
Theorem BrowserURL_last_call_wins flow baseURL1 params1 baseURL2 params2 :
  (BrowserURL E (BrowserURL E flow baseURL1 params1).2 baseURL2 params2).1
  = (BrowserURL E flow baseURL2 params2).1
  /\ (forall ru,
      url_Parse E (RedirectURI params2) = Ok ru ->
      (BrowserURL E (BrowserURL E flow baseURL1 params1).2 baseURL2 params2).2
      = (BrowserURL E flow baseURL2 params2).2
      /\ clientID (BrowserURL E flow baseURL2 params2).2 = ClientID params2
      /\ CallbackPath (server (BrowserURL E flow baseURL2 params2).2) = Path ru).
Proof.
  assert (Hfirst : Port (server (BrowserURL E flow baseURL1 params1).2)
                   = Port (server flow)
                   /\ state (BrowserURL E flow baseURL1 params1).2 = state flow
                   /\ WriteSuccessHTML (server (BrowserURL E flow baseURL1 params1).2)
                      = WriteSuccessHTML (server flow)).
  { unfold BrowserURL.
    destruct (url_Parse E (RedirectURI params1)); cbn; auto. }
  destruct Hfirst as (Hport & Hstate & Hrender).
  split.
  - unfold BrowserURL at 1 3.
    destruct (url_Parse E (RedirectURI params2)); [ | reflexivity].
    cbv zeta. cbn [fst state server Port]. now rewrite Hport, Hstate.
  - intros ru Hparse. unfold BrowserURL at 1 3 4 5. rewrite Hparse.
    cbv zeta. cbn [snd state server Port WriteSuccessHTML CallbackPath clientID].
    rewrite Hport, Hstate, Hrender. cbn [setHost Path]. easy.
Qed.

(** X7.  The flow end to end: after [BrowserURL] has returned a URL for
    [params] and [StartServer] has returned, a callback with the state of the
    flow makes [AccessTokenWithParams] post the client ID of [params], the
    code of the callback and the state that the URL carries. *)
Theorem flow_posts_browser_client_id flow baseURL params u flow1
    writeSuccess served flow2 (c : httpClient http_Response)
    tokenURL clientSecret postParams code :
  BrowserURL E flow baseURL params = (Ok u, flow1) ->
  StartServer E flow1 writeSuccess = (served, flow2) ->
  WaitForCode E (server flow2) = Ok code ->
  State code = state flow ->
  exists body,
    requests (AccessTokenWithParams E flow2 c tokenURL clientSecret postParams)
      = [{| req_url := tokenURL; req_form := body |}]
    /\ body !! "client_id" = Some [ClientID params]
    /\ body !! "code" = Some [Code code]
    /\ body !! "state" = Some [state flow].
Proof.
  intros Hurl Hserve Hwait Hstate.
  assert (H1 : clientID flow1 = ClientID params /\ state flow1 = state flow).
  { unfold BrowserURL in Hurl.
    destruct (url_Parse E (RedirectURI params)); [ | discriminate Hurl].
    injection Hurl as _ <-. easy. }
  assert (H2 : clientID flow2 = clientID flow1 /\ state flow2 = state flow1).
  { unfold StartServer in Hserve. destruct (Serve E _).
    injection Hserve as _ <-. easy. }
  destruct H1 as [Hid1 Hst1], H2 as [Hid2 Hst2].
  eexists. split.
  - apply (exchange_granted E _ _ _ _ _ _ Hwait). congruence.
  - rewrite Hid2, Hid1, Hst2, Hst1. now simplify_map_eq.
Qed.

End AuthorizationMore.

(** * Further properties of the state nonce *)

Section NonceMore.

Import url.

Context {http_Response api_FormResponse api_AccessToken : Type}.
Context (E : Env http_Response api_FormResponse api_AccessToken).

Lemma allBytes_impl (p q : ascii -> bool) s :
  (forall c, p c = true -> q c = true) ->
  strings.allBytes p s = true -> strings.allBytes q s = true.
Proof.
  intros Hpq. induction s as [ | c s IH]; [reflexivity | ].
  cbn [strings.allBytes]. intros [Hc Hs]%andb_true_iff.
  now rewrite (Hpq _ Hc), (IH Hs).
Qed.

Lemma EncodeToString_lowerHex (src : list byte) :
  strings.allBytes lowerHex (hex.EncodeToString src) = true.
Proof.
  induction src as [ | v src IH]; [reflexivity | ].
  cbn [hex.EncodeToString strings.allBytes]. rewrite IH.
  destruct v; reflexivity.
Qed.

Lemma lowerHex_unreserved c :
  lowerHex c = true -> negb (shouldEscape c encodeQueryComponent) = true.
Proof. each_byte c; intros H; try discriminate H; reflexivity. Qed.

Lemma randomString_unescaped (n : nat) :
  QueryEscape (randomString E n).1 = (randomString E n).1.
Proof.
  unfold randomString, rand_Read.
  destruct (rand_err E) as [err | ]; [reflexivity | ]. cbn [fst].
  apply escape_unchanged.
  apply (allBytes_impl lowerHex); [apply lowerHex_unreserved | ].
  apply EncodeToString_lowerHex.
Qed.

(** X1.  With a random source that delivers, [randomString(length)] returns
    no error and a string of [2 * (length / 2)] bytes, each of them one of
    [0-9a-f]; an odd [length] gives one byte less than asked for. *)
Theorem randomString_hex (n : nat) :
  rand_err E = None ->
  (randomString E n).2 = None
  /\ String.length (randomString E n).1 = 2 * (n / 2)
  /\ strings.allBytes lowerHex (randomString E n).1 = true
  /\ (Nat.Odd n -> String.length (randomString E n).1 = n - 1).
Proof.
  intros Hrand.
  destruct (randomString_length E n Hrand) as [Herr Hlen].
  split; [assumption | ]. split; [assumption | ]. split.
  - unfold randomString, rand_Read. rewrite Hrand. cbn [fst].
    apply EncodeToString_lowerHex.
  - intros [k ->]. rewrite Hlen.
    replace (2 * k + 1) with (1 + k * 2) by lia.
    rewrite Nat.div_add by lia. cbn. lia.
Qed.

(** X2.  [InitFlow] fails exactly when the local server cannot be bound, with
    the error of the binding; the flow it returns otherwise holds the bound
    server and an empty client ID. *)
Theorem InitFlow_fails_iff_unbound :
  (forall err, InitFlow E = Err err <-> bindLocalServer E = Err err)
  /\ (forall flow,
      InitFlow E = Ok flow ->
      bindLocalServer E = Ok (server flow)
      /\ clientID flow = EmptyString).
Proof.
  destruct (bindLocalServer E) as [srv | err'] eqn:Hbind.
  - rewrite (InitFlow_bound E _ Hbind). split.
    + intros err. split; discriminate.
    + intros flow [= <-]. easy.
  - rewrite (InitFlow_not_bound E _ Hbind). split.
    + intros err. split; intros [= ->]; reflexivity.
    + discriminate.
Qed.

Lemma Join_snoc (l : list string) x sep :
  l <> [] ->
  strings.Join (l ++ [x]) sep = strings.Join l sep +:+ sep +:+ x.
Proof.
  induction l as [ | e l IH]; [congruence | intros _ ].
  destruct l as [ | e' l]; [reflexivity | ].
  change ((e :: e' :: l) ++ [x]) with (e :: (e' :: l) ++ [x]).
  cbn [app] in *. rewrite !Join_cons, IH by discriminate.
  now rewrite !append_assoc.
Qed.

(** X3.  The state of a flow that [InitFlow] created needs no escaping: the
    URL that [BrowserURL] returns for it ends in [&state=] followed by the
    state as it is stored. *)
Theorem BrowserURL_ends_in_state created flow baseURL params ru :
  InitFlow E = Ok created ->
  state flow = state created ->
  url_Parse E (RedirectURI params) = Ok ru ->
  exists front,
    (BrowserURL E flow baseURL params).1
    = Ok (baseURL +:+ "?" +:+ front +:+ "&state=" +:+ state flow).
Proof.
  intros Hinit Hstate Hparse.
  destruct (BrowserURL_query E flow baseURL params ru Hparse)
    as (query & -> & -> & _).
  assert (Hescape : QueryEscape (state flow) = state flow)
    by (rewrite Hstate, (InitFlow_state E _ Hinit); apply randomString_unescaped).
  unfold authorizationParams.
  set (front := (if AllowSignup params then [] else [("allow_signup", "false")])
                ++ [("client_id", ClientID params)]
                ++ (if strings.isEmpty (LoginHandle params) then []
                    else [("login", LoginHandle params)])
                ++ [("redirect_uri", String_ (rewritten flow ru));
                    ("scope", strings.Join (Scopes params) " ")]).
  replace (_ ++ _ ++ _ ++ _) with (front ++ [("state", state flow)]).
  - exists (strings.Join (map param front) "&").
    rewrite map_app. cbn [map]. rewrite Join_snoc.
    + unfold param at 2. cbn [fst snd]. rewrite Hescape. reflexivity.
    + unfold front. destruct (AllowSignup params); discriminate.
  - unfold front.
    destruct (AllowSignup params), (strings.isEmpty (LoginHandle params));
      reflexivity.
Qed.

(** X15.  Whatever the parameters hold, the query string that [BrowserURL]
    appends holds no [#] and no [?]: a value cannot end the query or open a
    fragment. *)
Theorem BrowserURL_query_delimiters flow baseURL params ru :
  url_Parse E (RedirectURI params) = Ok ru ->
  exists query,
    (BrowserURL E flow baseURL params).1 = Ok (baseURL +:+ "?" +:+ query)
    /\ strings.ContainsByte query "#" = false
    /\ strings.ContainsByte query "?" = false
    /\ length (segments query)
       = 4 + (if AllowSignup params then 0 else 1)
           + (if strings.isEmpty (LoginHandle params) then 0 else 1).
Proof.
  intros Hparse.
  destruct (BrowserURL_query E flow baseURL params ru Hparse)
    as (query & Hurl & -> & _).
  eexists. split; [exact Hurl | ].
  rewrite !Join_params_separators by reflexivity.
  rewrite segments_Join, length_map. unfold authorizationParams.
  destruct (AllowSignup params), (strings.isEmpty (LoginHandle params));
    easy.
Qed.

End NonceMore.

Section ValuesMore.

Import url.

(** X12.  [ParseQuery] undoes [Encode]: parsing the encoding of a map gives no
    error and, under every key, the values the map holds under it; a key
    without values is not written and so is absent afterwards. *)
Theorem ParseQuery_Encode_lookup (v : gmap string (list string)) :
  (ParseQuery (Encode v)).2 = None
  /\ (forall key,
      (ParseQuery (Encode v)).1 !! key
      = match index v key with
        | [] => None
        | values => Some values
        end)
  /\ ((forall key, v !! key <> Some []) -> (ParseQuery (Encode v)).1 = v).
Proof.
  rewrite ParseQuery_Encode. cbn [fst snd]. split; [reflexivity | ]. split.
  - intros key. rewrite lookup_foldl_add, valuesOf_entries. unfold index.
    rewrite !lookup_empty. cbn. now destruct (default [] (v !! key)).
  - apply foldl_add_entries.
Qed.

End ValuesMore.

(** * Further properties of the rewritten host *)

Section HostMore.

Import url.

Lemma splitLast_absent s sep :
  strings.ContainsByte s sep = false -> strings.splitLast s sep = None.
Proof.
  induction s as [ | c s IH]; [reflexivity | ].
  cbn. intros [Hc Hs]%orb_false_iff. now rewrite (IH Hs), Hc.
Qed.

Lemma splitLast_append s t sep :
  strings.ContainsByte t sep = false ->
  strings.splitLast (s +:+ String sep t) sep = Some (s, String sep t).
Proof.
  intros Ht. induction s as [ | c s IH].
  - rewrite append_nil_l. cbn. now rewrite (splitLast_absent _ _ Ht), Ascii.eqb_refl.
  - rewrite append_cons. cbn [strings.splitLast]. now rewrite IH.
Qed.

Lemma allDigits_no_colon s :
  allDigits s = true -> strings.ContainsByte s ":" = false.
Proof.
  induction s as [ | c s IH]; [reflexivity | ].
  cbn. intros [Hc Hs]%andb_true_iff. rewrite (IH Hs), orb_false_r.
  each_byte c; try discriminate Hc; reflexivity.
Qed.

Lemma string_of_uint_digits d : allDigits (NilEmpty.string_of_uint d) = true.
Proof. induction d; cbn [NilEmpty.string_of_uint allDigits]; now rewrite ?IHd. Qed.

Lemma fmt_d_digits n : (0 <= n)%Z -> allDigits (fmt.d n) = true.
Proof.
  intros Hn. unfold fmt.d, NilZero.string_of_int, NilZero.string_of_uint.
  destruct n as [ | p | p]; [reflexivity | | lia]. cbn [Z.to_int].
  destruct (Pos.to_uint p); [reflexivity | apply string_of_uint_digits ..].
Qed.

(** X13.  When the port of the local server is not negative, the host that
    [BrowserURL] writes has the host name of the redirect URI as its host
    name: the port of the server is all that [Hostname] cuts off again. *)
Theorem rewritten_Hostname flow ru :
  (0 <= Port (server flow))%Z ->
  bracketed (Hostname ru) = false ->
  Hostname (rewritten flow ru) = Hostname ru.
Proof.
  intros Hport Hplain.
  pose proof (allDigits_no_colon _ (fmt_d_digits _ Hport)) as Hcolon.
  assert (Hsplit : strings.splitLast (Host (rewritten flow ru)) ":"
                   = Some (Hostname ru, ":" +:+ fmt.d (Port (server flow))))
    by (cbn [rewritten setHost Host]; now apply splitLast_append).
  unfold Hostname at 1, splitHost. rewrite Hsplit.
  change (validOptionalPort (":" +:+ ?s)) with (true && allDigits s).
  rewrite (fmt_d_digits _ Hport). cbn [andb].
  unfold bracketed in Hplain. now rewrite Hplain.
Qed.

Lemma HasSuffixByte_append s c x :
  strings.HasSuffixByte (s +:+ String c EmptyString) x = Ascii.eqb c x.
Proof.
  induction s as [ | d s IH]; [reflexivity | ].
  rewrite append_cons. cbn [strings.HasSuffixByte]. rewrite IH.
  now destruct s.
Qed.

Lemma dropLast_append s c : strings.dropLast (s +:+ String c EmptyString) = s.
Proof.
  induction s as [ | d s IH]; [reflexivity | ].
  rewrite append_cons. cbn [strings.dropLast]. rewrite IH.
  now destruct s.
Qed.

Lemma splitLast_suffix s sep before from x :
  strings.splitLast s sep = Some (before, from) ->
  strings.HasSuffixByte from x = strings.HasSuffixByte s x.
Proof.
  revert before. induction s as [ | c s IH]; intros before; [discriminate | ].
  cbn [strings.splitLast].
  destruct (strings.splitLast s sep) as [[b f] | ] eqn:Hs.
  - intros [= <- <-]. rewrite (IH _ eq_refl).
    destruct s; [discriminate Hs | reflexivity].
  - destruct (Ascii.eqb c sep); [ | discriminate]. now intros [= <- <-].
Qed.

Lemma allDigits_suffix s :
  strings.HasSuffixByte s "]" = true -> allDigits s = false.
Proof.
  induction s as [ | c s IH]; [discriminate | ].
  cbn [strings.HasSuffixByte allDigits]. destruct s as [ | d s].
  - intros Hc%Ascii.eqb_eq. now subst c.
  - intros Hs. now rewrite (IH Hs), andb_false_r.
Qed.

Lemma validOptionalPort_suffix s :
  strings.HasSuffixByte s "]" = true -> validOptionalPort s = false.
Proof.
  destruct s as [ | c s]; [discriminate | ].
  cbn [strings.HasSuffixByte validOptionalPort]. destruct s as [ | d s].
  - intros Hc%Ascii.eqb_eq. now subst c.
  - intros Hs. now rewrite (allDigits_suffix _ Hs), andb_false_r.
Qed.

(** X14.  [BrowserURL] drops the square brackets of a bracketed host: for a
    redirect URI whose host is [[address]], without a port, the host written
    is [address:<port>]. *)
Theorem rewritten_drops_brackets flow ru address :
  Host ru = "[" +:+ address +:+ "]" ->
  Hostname ru = address
  /\ Host (rewritten flow ru) = address +:+ ":" +:+ fmt.d (Port (server flow)).
Proof.
  intros Hhost.
  assert (Hname : Hostname ru = address).
  { unfold Hostname, splitHost. rewrite Hhost.
    assert (Hsuffix : strings.HasSuffixByte ("[" +:+ address +:+ "]") "]" = true).
    { change ("[" +:+ address +:+ "]") with (String "[" (address +:+ "]")).
      rewrite <- append_cons. apply HasSuffixByte_append. }
    assert (Hkept : match strings.splitLast ("[" +:+ address +:+ "]") ":" with
                    | Some (before, from) =>
                        if validOptionalPort from then before
                        else "[" +:+ address +:+ "]"
                    | None => "[" +:+ address +:+ "]"
                    end = "[" +:+ address +:+ "]").
    { destruct (strings.splitLast _ ":") as [[before from] | ] eqn:Hsplit;
        [ | reflexivity].
      rewrite validOptionalPort_suffix; [reflexivity | ].
      now rewrite (splitLast_suffix _ _ _ _ _ Hsplit). }
    rewrite Hkept, Hsuffix. cbn [strings.HasPrefixByte Ascii.eqb andb].
    change ("[" +:+ address +:+ "]") with (String "[" (address +:+ "]")).
    cbn [strings.dropFirst]. apply dropLast_append. }
  split; [assumption | ].
  cbn [rewritten setHost Host]. now rewrite Hname.
Qed.

End HostMore.

(** * The entropy of the state nonce *)

Section NonceEntropy.

Context {http_Response api_FormResponse api_AccessToken : Type}.

Lemma hex_digits_decode (v : byte) :
  Byte.of_N (url.unhex (strings.at_ hex.hextable (N.shiftr (Byte.to_N v) 4)) * 16
             + url.unhex (strings.at_ hex.hextable (N.land (Byte.to_N v) 15)))
  = Some v.
Proof. destruct v; reflexivity. Qed.

Lemma EncodeToString_inj (a b : list byte) :
  hex.EncodeToString a = hex.EncodeToString b -> a = b.
Proof.
  revert b. induction a as [ | v a IH]; intros [ | w b];
    cbn [hex.EncodeToString]; try discriminate; [reflexivity | ].
  intros [= Hhi Hlo Hrest].
  pose proof (hex_digits_decode v) as Hv. rewrite Hhi, Hlo, hex_digits_decode in Hv.
  injection Hv as <-. now rewrite (IH _ Hrest).
Qed.

(** X16.  The state keeps all of the ten random bytes: two flows created with
    random sources that deliver have the same state only if the two sources
    delivered the same ten bytes. *)
Theorem InitFlow_state_inj
    (E1 E2 : Env http_Response api_FormResponse api_AccessToken) flow1 flow2 :
  InitFlow E1 = Ok flow1 ->
  InitFlow E2 = Ok flow2 ->
  rand_err E1 = None ->
  rand_err E2 = None ->
  state flow1 = state flow2 ->
  forall i, i < 10 -> rand_byte E1 i = rand_byte E2 i.
Proof.
  intros Hinit1 Hinit2 Hrand1 Hrand2 Hstate i Hi.
  rewrite (InitFlow_state E1 _ Hinit1), (InitFlow_state E2 _ Hinit2) in Hstate.
  unfold randomString, rand_Read in Hstate. rewrite Hrand1, Hrand2 in Hstate.
  cbn [fst] in Hstate. apply EncodeToString_inj in Hstate.
  change (20 / 2) with 10 in Hstate. rewrite repeat_length in Hstate.
  assert (Hin : In i (seq 0 10)) by (apply in_seq; lia).
  revert Hin. generalize (seq 0 10) Hstate. clear.
  intros l. induction l as [ | j l IH]; cbn; [tauto | ].
  intros [= Hj Hl] [<- | Hin]; [assumption | now apply IH].
Qed.

End NonceEntropy.

(** * The further properties on concrete inputs *)

Section RunsMore.

Import Example Sample.

Lemma randomString_hex_witness :
  (randomString E 5).2 = None
  /\ String.length (randomString E 5).1 = 2 * (5 / 2)
  /\ strings.allBytes lowerHex (randomString E 5).1 = true
  /\ String.length (randomString E 5).1 = 5 - 1.
Proof.
  destruct (randomString_hex E 5 eq_refl) as (Herr & Hlen & Hhex & Hodd).
  split; [exact Herr | ]. split; [exact Hlen | ]. split; [exact Hhex | ].
  apply Hodd. exists 2. reflexivity.
Defined.

Lemma InitFlow_fails_iff_unbound_witness :
  InitFlow unbound = Err (errorString "listen tcp 127.0.0.1:0: bind failed")
  /\ bindLocalServer E = Ok (server flow0)
  /\ clientID flow0 = EmptyString.
Proof.
  split.
  - apply (proj1 (InitFlow_fails_iff_unbound unbound)). reflexivity.
  - apply (proj2 (InitFlow_fails_iff_unbound E) flow0). reflexivity.
Defined.

Lemma BrowserURL_ends_in_state_witness :
  exists front,
    (BrowserURL E flow1 baseURL params1).1
    = Ok (baseURL +:+ "?" +:+ front +:+ "&state=" +:+ state flow1).
Proof.
  apply (BrowserURL_ends_in_state E flow0 flow1 baseURL params1 redirect0);
    reflexivity.
Defined.

Lemma BrowserURL_fails_iff_witness :
  (BrowserURL E flow0 baseURL unparsable).1
  = Err (errorString "not an absolute URL of unreserved bytes")
  /\ (BrowserURL E flow0 baseURL unparsable).2 = flow0.
Proof.
  destruct (BrowserURL_fails_iff E flow0 baseURL unparsable
              (errorString "not an absolute URL of unreserved bytes"))
    as [[_ Hfails] Hkept].
  split; [ | apply Hkept]; apply Hfails; reflexivity.
Defined.

Lemma BrowserURL_login_and_keys_witness :
  exists query,
    (BrowserURL E flow0 baseURL params1).1 = Ok (baseURL +:+ "?" +:+ query)
    /\ (url.ParseQuery query).1 !! "login" = Some ["monalisa"]
    /\ is_Some ((url.ParseQuery query).1 !! "redirect_uri")
    /\ (forall key,
        is_Some ((url.ParseQuery query).1 !! key) ->
        In key ["allow_signup"; "client_id"; "login"; "redirect_uri"; "scope";
                "state"]).
Proof.
  apply (BrowserURL_login_and_keys E flow0 baseURL params1 redirect0).
  reflexivity.
Defined.

Lemma BrowserURL_last_call_wins_witness :
  (BrowserURL E (BrowserURL E flow0 baseURL params1).2 baseURL params0).1
  = (BrowserURL E flow0 baseURL params0).1
  /\ (BrowserURL E (BrowserURL E flow0 baseURL params1).2 baseURL params0).2
     = (BrowserURL E flow0 baseURL params0).2
  /\ clientID (BrowserURL E flow0 baseURL params0).2 = "CLIENT-ID"
  /\ CallbackPath (server (BrowserURL E flow0 baseURL params0).2) = "/hello".
Proof.
  destruct (BrowserURL_last_call_wins E flow0 baseURL params1 baseURL params0)
    as [Hurl Hflow].
  split; [exact Hurl | ]. apply (Hflow redirect0). reflexivity.
Defined.

Lemma flow_posts_browser_client_id_witness :
  exists body,
    requests (AccessTokenWithParams E flow1 client tokenURL "SECRET" (Some extra))
      = [{| req_url := tokenURL; req_form := body |}]
    /\ body !! "client_id" = Some ["CLIENT-ID"]
    /\ body !! "code" = Some ["abc123"]
    /\ body !! "state" = Some [state flow0].
Proof.
  apply (flow_posts_browser_client_id E flow0 baseURL params0
           (baseURL +:+ "?" +:+
            "client_id=CLIENT-ID&redirect_uri=http%3A%2F%2F127.0.0.1%3A12345%2Fhello&scope=repo+read%3Aorg&state=10111213141516171819")
           flow1 None None flow1 client tokenURL "SECRET" (Some extra) granted).
  - vm_compute. reflexivity.
  - reflexivity.
  - reflexivity.
  - reflexivity.
Defined.

Lemma exchange_posts_once_iff_witness :
  requests (AccessTokenWithParams E flow1 client tokenURL "SECRET" None) <> []
  /\ ~ (requests (AccessTokenWithParams (env None (Ok forged)) flow1 client
                    tokenURL "SECRET" None) <> []).
Proof.
  split.
  - apply (proj2 (exchange_posts_once_iff E flow1 client tokenURL "SECRET" None)).
    exists granted. split; reflexivity.
  - intros Hposted.
    apply (proj2 (exchange_posts_once_iff (env None (Ok forged)) flow1 client
                    tokenURL "SECRET" None)) in Hposted.
    destruct Hposted as (code & [= <-] & Hstate). discriminate Hstate.
Defined.

Lemma exchange_refusal_keeps_params_witness :
  params_after (AccessTokenWithParams (env None (Ok forged)) flow1 client
                  tokenURL "SECRET" (Some extra))
  = Some extra
  /\ params_after (AccessTokenWithParams (env None (Ok forged)) flow1 client
                     tokenURL "SECRET" None)
     = None.
Proof.
  destruct (exchange_refusal_keeps_params (env None (Ok forged)) flow1 client
              tokenURL "SECRET" (Some extra)) as [Hkept Hnil].
  split; [apply Hkept; reflexivity | exact Hnil].
Defined.

Lemma exchange_form_keys_witness :
  exists r,
    In r (requests (AccessTokenWithParams E flow1 client tokenURL "SECRET"
                      (Some extra)))
    /\ dom (req_form r)
       = {["client_id"; "client_secret"; "code"; "state"]} ∪ dom extra.
Proof.
  destruct (requests (AccessTokenWithParams E flow1 client tokenURL "SECRET"
                        (Some extra))) as [ | r rest] eqn:Hrequests.
  - discriminate Hrequests.
  - exists r. split; [now left | ].
    apply (exchange_form_keys E flow1 client tokenURL "SECRET" (Some extra) r).
    rewrite Hrequests. now left.
Defined.

Lemma exchange_token_from_response_witness :
  token (AccessTokenWithParams E flow1 client tokenURL "SECRET" None)
  = Ok "access_token=tok_xyz&token_type=bearer"
  /\ token (AccessTokenWithParams E flow1 offline tokenURL "SECRET" None)
     = Err (errorString "connection refused").
Proof.
  split.
  - destruct (exchange_token_from_response E flow1 client tokenURL "SECRET" None
                granted eq_refl eq_refl) as (body & _ & _ & _ & Hresponse).
    apply (Hresponse "access_token=tok_xyz&token_type=bearer"
             "access_token=tok_xyz&token_type=bearer"); reflexivity.
  - destruct (exchange_token_from_response E flow1 offline tokenURL "SECRET" None
                granted eq_refl eq_refl) as (body & _ & Hfailed & _).
    apply Hfailed. reflexivity.
Defined.

Lemma ParseQuery_Encode_lookup_witness :
  url.Encode values = "a%26b=1%3D2&scope=repo&scope=read%3Aorg"
  /\ (url.ParseQuery (url.Encode values)).1 !! "scope" = Some ["repo"; "read:org"]
  /\ (url.ParseQuery (url.Encode values)).1 !! "login" = None
  /\ (url.ParseQuery (url.Encode extra)).1 = extra.
Proof.
  destruct (ParseQuery_Encode_lookup values) as (_ & Hlookup & _).
  destruct (ParseQuery_Encode_lookup extra) as (_ & _ & Hsame).
  split; [vm_compute; reflexivity | ].
  split; [rewrite Hlookup; reflexivity | ].
  split; [rewrite Hlookup; reflexivity | ].
  apply Hsame. intros key. unfold extra.
  rewrite !lookup_insert, lookup_empty.
  repeat case_decide; discriminate.
Defined.

Lemma rewritten_Hostname_witness :
  url.Hostname (rewritten flow0 redirect0) = "127.0.0.1".
Proof.
  apply (rewritten_Hostname flow0 redirect0); [vm_compute; discriminate | reflexivity].
Defined.

Lemma rewritten_drops_brackets_witness :
  url.Hostname loopback6 = "::1"
  /\ url.Host (rewritten flow0 loopback6) = "::1" +:+ ":" +:+ fmt.d 12345.
Proof. apply (rewritten_drops_brackets flow0 loopback6 "::1"). reflexivity. Defined.

Lemma BrowserURL_query_delimiters_witness :
  exists query,
    (BrowserURL E flow0 baseURL params1).1 = Ok (baseURL +:+ "?" +:+ query)
    /\ strings.ContainsByte query "#" = false
    /\ strings.ContainsByte query "?" = false
    /\ length (url.segments query) = 4 + 1 + 1.
Proof.
  apply (BrowserURL_query_delimiters E flow0 baseURL params1 redirect0).
  reflexivity.
Defined.

Lemma InitFlow_state_inj_witness :
  rand_byte E 3 = rand_byte (env None (Ok forged)) 3.
Proof.
  apply (InitFlow_state_inj E (env None (Ok forged)) flow0 flow0);
    reflexivity || lia.
Defined.

End RunsMore.
